(** * Inventory agent: a model of [inventory_agent.py] and its properties

    The development follows the source file top to bottom:
    - [PyStr]: the string built-ins the program calls ([lower], [strip],
      [split], [join], [int], [str]);
    - [Item] and [Dict]: an entry, and the insertion-ordered dictionary
      holding the inventory;
    - [World] and [M]: the state the program runs in (the dictionary objects
      it has created, the persisted file, standard output) and a small state
      and exception monad over it;
    - the four inventory operations, the command interpreter, the local
      command loop and the SDK front end;
    - the properties, each with the facts it rests on. *)

From Stdlib Require Import ZArith Ascii String.
From stdpp Require Import base list strings pretty gmap.

Local Open Scope Z_scope.

(** ** String built-ins *)

Module PyStr.

(** The program handles text as [str]. The model works on bytes: a
    character is an [ascii], the case mapping and the white space class
    are those of the ASCII range, every other byte is a caseless
    non-space character. *)

Definition is_upper (c : ascii) : bool :=
  let n := N_of_ascii c in ((65 <=? n) && (n <=? 90))%N.

Definition lower_char (c : ascii) : ascii :=
  if is_upper c then ascii_of_N (N_of_ascii c + 32) else c.

(** [s.lower()] *)
Fixpoint lower (s : string) : string :=
  match s with
  | EmptyString => EmptyString
  | String c s' => String (lower_char c) (lower s')
  end.

(** [c.isspace()] on the ASCII range: tab, line feed, vertical tab, form
    feed, carriage return, the four separators 28 to 31, and space. *)
Definition isspace (c : ascii) : bool :=
  let n := N_of_ascii c in
  (((9 <=? n) && (n <=? 13)) || ((28 <=? n) && (n <=? 32)))%N.

Definition is_empty (s : string) : bool :=
  match s with EmptyString => true | String _ _ => false end.

Fixpoint lstrip (s : string) : string :=
  match s with
  | EmptyString => EmptyString
  | String c s' => if isspace c then lstrip s' else s
  end.

Fixpoint rstrip (s : string) : string :=
  match s with
  | EmptyString => EmptyString
  | String c s' =>
      let r := rstrip s' in
      if isspace c && is_empty r then EmptyString else String c r
  end.

(** [s.strip()] *)
Definition strip (s : string) : string := rstrip (lstrip s).

(** [s.split()]: the maximal runs of non-space characters, in order.
    [cur] is the run being read. *)
Fixpoint split_from (cur : string) (s : string) : list string :=
  match s with
  | EmptyString => if is_empty cur then [] else [cur]
  | String c s' =>
      if isspace c
      then (if is_empty cur then split_from EmptyString s'
            else cur :: split_from EmptyString s')
      else split_from (cur +:+ String c EmptyString) s'
  end.

Definition split (s : string) : list string := split_from EmptyString s.

(** [sep.join(parts)] *)
Fixpoint join (sep : string) (parts : list string) : string :=
  match parts with
  | [] => EmptyString
  | [p] => p
  | p :: ps => p +:+ sep +:+ join sep ps
  end.

Definition digit_of (c : ascii) : option Z :=
  let n := N_of_ascii c in
  if ((48 <=? n) && (n <=? 57))%N then Some (Z.of_N n - 48) else None.

Definition is_underscore (c : ascii) : bool := (N_of_ascii c =? 95)%N.

(** The digits of an [int] literal in base ten: one or more digits, single
    underscores allowed between two digits. [after_digit] tells whether the
    character just read was a digit. *)
Fixpoint parse_digits (acc : Z) (after_digit : bool) (s : string) : option Z :=
  match s with
  | EmptyString => if after_digit then Some acc else None
  | String c s' =>
      match digit_of c with
      | Some d => parse_digits (10 * acc + d) true s'
      | None =>
          if is_underscore c && after_digit
          then parse_digits acc false s'
          else None
      end
  end.

(** [int(s)] for a [str] argument; [None] stands for [ValueError]. The
    bound that recent interpreters put on the number of digits of a literal
    is left out. *)
Definition parse_int (s : string) : option Z :=
  match strip s with
  | String "+" r => parse_digits 0 false r
  | String "-" r => Z.opp <$> parse_digits 0 false r
  | r => parse_digits 0 false r
  end.

(** [str(n)] for an [int]. *)
Definition str_int (n : Z) : string := pretty n.

End PyStr.

(** ** The inventory dictionary *)

(** A [float] as this program sees it. A price is received, stored and
    printed; the program never computes with it nor compares it. The model
    keeps the text that [str] prints for it. *)
Record pyfloat := PyFloat { float_str : string }.

(** The default [0.0] of [add_item], [check_stock] and [list_items]. *)
Definition zero_price : pyfloat := PyFloat "0.0".

(** One entry of the inventory: [{"name": ..., "quantity": ..., "price": ...}].
    The program reads ["name"] and ["quantity"] by subscript and ["price"]
    with [.get('price', 0.0)], so only the price may be missing. *)
Module Item.
Record t := mk {
  name : string;
  quantity : Z;
  price : option pyfloat
}.
End Item.

Module Dict.

(** A Python [dict] with [str] keys: the bindings in insertion order. *)
Definition t (V : Type) := list (string * V).

(** [d.get(key)] *)
Fixpoint get {V} (key : string) (d : t V) : option V :=
  match d with
  | [] => None
  | (k, v) :: d' => if String.eqb k key then Some v else get key d'
  end.

(** [key in d] *)
Definition mem {V} (key : string) (d : t V) : bool :=
  match get key d with Some _ => true | None => false end.

(** [d[key] = v]: an existing binding keeps its place, a new one goes
    last. *)
Fixpoint set {V} (key : string) (v : V) (d : t V) : t V :=
  match d with
  | [] => [(key, v)]
  | (k, x) :: d' =>
      if String.eqb k key then (k, v) :: d' else (k, x) :: set key v d'
  end.

(** [d.pop(key)] for a key that is present. *)
Fixpoint pop {V} (key : string) (d : t V) : t V :=
  match d with
  | [] => []
  | (k, x) :: d' => if String.eqb k key then d' else (k, x) :: pop key d'
  end.

(** [d.keys()] and [d.values()] *)
Definition keys {V} (d : t V) : list string := d.*1.
Definition values {V} (d : t V) : list V := d.*2.

(** What every [dict] satisfies: no key is bound twice. *)
Definition wf {V} (d : t V) : Prop := NoDup (keys d).

End Dict.

Definition Inventory := Dict.t Item.t.

(** ** Program state and effects *)

Inductive exn_class :=
  | IndexError | KeyError | ValueError | AttributeError
  | ImportError | EOFError | KeyboardInterrupt | OtherError.

(** A raised exception: its class and the text [str(e)] prints. *)
Record exn := Exn { exn_kind : exn_class; exn_msg : string }.

(** [isinstance(e, Exception)]: what [except Exception] catches.
    [KeyboardInterrupt] derives from [BaseException] only. *)
Definition is_Exception (e : exn) : bool :=
  match exn_kind e with KeyboardInterrupt => false | _ => true end.

#[global] Instance exn_class_eq_dec : EqDecision exn_class.
Proof. solve_decision. Defined.

Definition is_kind (k : exn_class) (e : exn) : bool :=
  bool_decide (exn_kind e = k).

(** A reference to a dictionary object. Two names bound to the same
    reference see each other's updates; [load_inventory] returns a new
    object each time it is called. *)
Definition ref := nat.

(** The state a run of the program acts on. *)
Record World := mkWorld {
  heap : gmap ref Inventory;   (* the dictionary objects created so far *)
  file : option Inventory;     (* inventory_data.json; None: no such file *)
  saves : nat;                 (* completed calls of save_inventory *)
  stdout : list string         (* what each print wrote, oldest first;
                                  the prompts of input are not recorded *)
}.

Inductive res (A : Type) :=
  | Ret (a : A)
  | Raise (e : exn).
Arguments Ret {A} a.
Arguments Raise {A} e.

(** A computation: it ends with a value or a raised exception, and in both
    cases leaves a state behind. *)
Definition M (A : Type) := World -> res A * World.

Definition ret {A} (a : A) : M A := fun w => (Ret a, w).

Definition raise {A} (e : exn) : M A := fun w => (Raise e, w).

Definition bind {A B} (m : M A) (k : A -> M B) : M B :=
  fun w =>
    match m w with
    | (Ret a, w') => k a w'
    | (Raise e, w') => (Raise e, w')
    end.

(** [try: body / except <catches> as e: handler e] *)
Definition try_except {A} (body : M A) (catches : exn -> bool)
    (handler : exn -> M A) : M A :=
  fun w =>
    match body w with
    | (Ret a, w') => (Ret a, w')
    | (Raise e, w') => if catches e then handler e w' else (Raise e, w')
    end.

Declare Scope py_scope.
Delimit Scope py_scope with py.
Notation "'let*' x := m 'in' k" := (bind m (fun x => k))
  (at level 10, x name, m at level 100, k at level 200) : py_scope.
Notation "m ;; k" := (bind m (fun _ => k))
  (at level 100, k at level 200, right associativity) : py_scope.
Local Open Scope py_scope.

(** The dictionary a reference denotes. *)
Definition deref (r : ref) (w : World) : Inventory := default [] (heap w !! r).

Definition read (r : ref) : M Inventory := fun w => (Ret (deref r w), w).

Definition write (r : ref) (d : Inventory) : M unit :=
  fun w => (Ret tt, mkWorld (<[r := d]> (heap w)) (file w) (saves w) (stdout w)).

(** A new dictionary object holding [d]. *)
Definition new_dict (d : Inventory) : M ref :=
  fun w =>
    let r := fresh (dom (heap w)) in
    (Ret r, mkWorld (<[r := d]> (heap w)) (file w) (saves w) (stdout w)).

(** [d[key]] *)
Definition subscript (key : string) (d : Inventory) : M Item.t :=
  match Dict.get key d with
  | Some it => ret it
  | None => raise (Exn KeyError key)
  end.

(** [print(s)] *)
Definition print (s : string) : M unit :=
  fun w => (Ret tt, mkWorld (heap w) (file w) (saves w) (stdout w ++ [s])).

(** ** Simple local inventory store *)

(** The persisted file is taken to hold what [save_inventory] wrote, or a
    well-formed mapping of entries; [json.load] then returns that mapping as
    a new dictionary. *)
Definition load_inventory : M ref :=
  fun w =>
    match file w with
    | Some d => new_dict d w
    | None => new_dict [] w
    end.

Definition save_inventory (inventory : ref) : M unit :=
  fun w =>
    (Ret tt, mkWorld (heap w) (Some (deref inventory w)) (S (saves w)) (stdout w)).

(** ** Inventory operations *)

Import PyStr.

Definition with_quantity (it : Item.t) (q : Z) : Item.t :=
  Item.mk (Item.name it) q (Item.price it).

(** The texts the operations return. *)
Definition msg_added (name : string) (qty total : Z) : string :=
  "Added " +:+ str_int qty +:+ " x " +:+ name +:+ ". New qty: " +:+ str_int total.
Definition msg_remove_not_found (name : string) : string :=
  "Item '" +:+ name +:+ "' not found in inventory.".
Definition msg_removed_completely (name : string) (qty : Z) : string :=
  "Removed item '" +:+ name +:+ "' completely (requested " +:+ str_int qty +:+ ").".
Definition msg_removed (name : string) (qty remaining : Z) : string :=
  "Removed " +:+ str_int qty +:+ " x " +:+ name +:+ ". Remaining qty: "
    +:+ str_int remaining.
Definition msg_check_not_found (name : string) : string :=
  "Item '" +:+ name +:+ "' not found.".
Definition msg_empty : string := "Inventory is empty.".

Definition add_item (inventory : ref) (name : string) (qty : Z)
    (price : pyfloat) : M string :=
  let key := lower name in
  let* d := read inventory in
  (match Dict.get key d with
   | Some it =>
       write inventory (Dict.set key (with_quantity it (Item.quantity it + qty)) d)
   | None =>
       write inventory (Dict.set key (Item.mk name qty (Some price)) d)
   end) ;;
  save_inventory inventory ;;
  let* d' := read inventory in
  let* it' := subscript key d' in
  ret (msg_added name qty (Item.quantity it')).

Definition remove_item (inventory : ref) (name : string) (qty : Z) : M string :=
  let key := lower name in
  let* d := read inventory in
  match Dict.get key d with
  | None => ret (msg_remove_not_found name)
  | Some it =>
      if qty >=? Item.quantity it then
        write inventory (Dict.pop key d) ;;
        save_inventory inventory ;;
        ret (msg_removed_completely name qty)
      else
        write inventory (Dict.set key (with_quantity it (Item.quantity it - qty)) d) ;;
        save_inventory inventory ;;
        let* d' := read inventory in
        let* it' := subscript key d' in
        ret (msg_removed name qty (Item.quantity it'))
  end.

(** [it.get('price', 0.0)], printed. *)
Definition price_str (it : Item.t) : string :=
  float_str (default zero_price (Item.price it)).

(** The line [check_stock] returns for an entry. *)
Definition msg_stock (it : Item.t) : string :=
  Item.name it +:+ ": quantity=" +:+ str_int (Item.quantity it)
    +:+ ", price=" +:+ price_str it.

Definition check_stock (inventory : ref) (name : string) : M string :=
  let key := lower name in
  let* d := read inventory in
  match Dict.get key d with
  | None => ret (msg_check_not_found name)
  | Some it => ret (msg_stock it)
  end.

Definition nl : string := String "010" EmptyString.

(** One line of [list_items]. *)
Definition item_line (v : Item.t) : string :=
  Item.name v +:+ " — qty: " +:+ str_int (Item.quantity v)
    +:+ " — price: " +:+ price_str v.

Definition list_items (inventory : ref) : M string :=
  let* d := read inventory in
  match d with
  | [] => ret msg_empty
  | _ => ret (join nl (item_line <$> Dict.values d))
  end.

(** ** Local CLI fallback (no SDK) *)

(** [x in (a, b)] on strings. *)
Definition is_in (x : string) (choices : list string) : bool :=
  existsb (String.eqb x) choices.

(** [parts[i]] *)
Definition index (i : nat) (parts : list string) : M string :=
  match parts !! i with
  | Some p => ret p
  | None => raise (Exn IndexError "list index out of range")
  end.

(** [int(s)] *)
Definition int (s : string) : M Z :=
  match parse_int s with
  | Some n => ret n
  | None => raise (Exn ValueError "invalid literal for int() with base 10")
  end.

Definition msg_usage_add : string :=
  "Can't parse quantity. Usage: add <qty> <item name>".
Definition msg_usage_remove : string :=
  "Can't parse quantity. Usage: remove <qty> <item name>".
Definition msg_not_understood : string :=
  "I didn't understand. Try: add, remove, check, list".

(** The conditions of the [if]/[elif] chain all start with [parts[0]]. The
    first one evaluates it: when it raises, nothing else runs; otherwise the
    later conditions read the same value again. *)
Definition handle_local_text_command (inventory : ref) (text : string) : M unit :=
  let t := strip (lower text) in
  let parts := split t in
  let* verb := index 0 parts in
  if is_in verb ["add"; "insert"] && (3 <=? length parts)%nat then
    try_except
      (let* token := index 1 parts in
       let* qty := int token in
       let name := join " " (drop 2 parts) in
       let* msg := add_item inventory name qty zero_price in
       print msg)
      (is_kind ValueError)
      (fun _ => print msg_usage_add)
  else if is_in verb ["remove"; "delete"] && (3 <=? length parts)%nat then
    try_except
      (let* token := index 1 parts in
       let* qty := int token in
       let name := join " " (drop 2 parts) in
       let* msg := remove_item inventory name qty in
       print msg)
      (is_kind ValueError)
      (fun _ => print msg_usage_remove)
  else if is_in verb ["check"; "stock"] && (2 <=? length parts)%nat then
    let name := join " " (drop 1 parts) in
    let* msg := check_stock inventory name in
    print msg
  else if is_in verb ["list"; "show"] then
    let* msg := list_items inventory in
    print msg
  else
    print msg_not_understood.

(** What one call of [input] finds on standard input: a line, or an
    interrupt from the keyboard. An exhausted input is the end of file. *)
Inductive input_event :=
  | Line (s : string)
  | Interrupt.

(** [input(prompt)], given what is next on standard input. *)
Definition input (next : option input_event) : M string :=
  match next with
  | Some (Line s) => ret s
  | Some Interrupt => raise (Exn KeyboardInterrupt "")
  | None => raise (Exn EOFError "EOF when reading a line")
  end.

Definition is_exit (cmd : string) : bool :=
  is_in (lower (strip cmd)) ["exit"; "quit"].

(** The [while True] loop of [run_local_cli]; every iteration reads one
    event of [stdin]. The result [None] of the guarded [input] is the
    [break] of its handler. *)
Fixpoint local_loop (inventory : ref) (stdin : list input_event) : M unit :=
  let continue :=
    match stdin with
    | [] => ret tt
    | _ :: rest => local_loop inventory rest
    end in
  let* cmd :=
    try_except
      (let* cmd := input (head stdin) in ret (Some cmd))
      (fun e => is_kind KeyboardInterrupt e || is_kind EOFError e)
      (fun _ => print (nl +:+ "Exiting.") ;; ret None) in
  match cmd with
  | None => ret tt
  | Some cmd =>
      if is_empty cmd then continue
      else if is_exit cmd then print "Goodbye."
      else handle_local_text_command inventory cmd ;; continue
  end.

Definition msg_cli_ready : string :=
  "Inventory CLI ready. Commands: add <qty> <name>, remove <qty> <name>, check <name>, list, exit".

Definition run_local_cli (stdin : list input_event) : M unit :=
  let* inventory := load_inventory in
  print msg_cli_ready ;;
  local_loop inventory stdin.

(** ** The agent built with the OpenAI Agents SDK *)

(** The parameter object a tool receives: the declared fields, each either
    absent or a value of its declared type. *)
Record Params := mkParams {
  p_name : option string;
  p_quantity : option Z;
  p_price : option pyfloat
}.

(** [name.lower()] when [params.get("name")] is [None]. *)
Definition no_lower : exn :=
  Exn AttributeError "'NoneType' object has no attribute 'lower'".

Definition sdk_add_item (inventory : ref) (params : Params) : M string :=
  let qty := default 0 (p_quantity params) in
  let price := default zero_price (p_price params) in
  match p_name params with
  | Some name => add_item inventory name qty price
  | None => raise no_lower
  end.

Definition sdk_remove_item (inventory : ref) (params : Params) : M string :=
  let qty := default 0 (p_quantity params) in
  match p_name params with
  | Some name => remove_item inventory name qty
  | None => raise no_lower
  end.

Definition sdk_check_stock (inventory : ref) (params : Params) : M string :=
  match p_name params with
  | Some name => check_stock inventory name
  | None => raise no_lower
  end.

Definition sdk_list_items (inventory : ref) (params : Params) : M string :=
  list_items inventory.

(** The four entries of [tools], by their [name]. *)
Inductive tool := Tool_add_item | Tool_remove_item | Tool_check_stock | Tool_list_items.

(** [tool.func], each closed over the [inventory] of [run_with_sdk]. *)
Definition tool_func (inventory : ref) (t : tool) : Params -> M string :=
  match t with
  | Tool_add_item => sdk_add_item inventory
  | Tool_remove_item => sdk_remove_item inventory
  | Tool_check_stock => sdk_check_stock inventory
  | Tool_list_items => sdk_list_items inventory
  end.

(** What one call of [agent.run] does, seen from this program: it calls
    tools, each time going on from what the tool returned or raised, and in
    the end returns a response or raises. *)
Inductive agent_run :=
  | Respond (response : string)
  | Fail (e : exn)
  | Call (t : tool) (params : Params) (k : res string -> agent_run).

(** [agent.run(user)] for an agent constructed with [tools]. *)
Fixpoint agent_exec (tools : tool -> Params -> M string) (a : agent_run) : M string :=
  match a with
  | Respond response => ret response
  | Fail e => raise e
  | Call t params k =>
      fun w =>
        let (r, w') := tools t params w in
        agent_exec tools (k r) w'
  end.

(** The collaborator: whether the import and the constructors succeed
    ([None]) or raise, and what the [n]-th call of [agent.run] does with the
    text it is given. *)
Record Sdk := mkSdk {
  sdk_import : option exn;
  sdk_Tool : tool -> option exn;
  sdk_Agent : option exn;
  sdk_run : nat -> string -> agent_run
}.

Definition may_raise (o : option exn) : M unit :=
  match o with
  | Some e => raise e
  | None => ret tt
  end.

(** The [while True] loop of [run_with_sdk]; [n] counts the calls of
    [agent.run] made so far. [input] is not guarded here. *)
Fixpoint sdk_loop (sdk : Sdk) (tools : tool -> Params -> M string) (n : nat)
    (stdin : list input_event) : M unit :=
  let continue n' :=
    match stdin with
    | [] => ret tt
    | _ :: rest => sdk_loop sdk tools n' rest
    end in
  let* user := input (head stdin) in
  if is_empty user then continue n
  else if is_exit user then print "Goodbye."
  else
    try_except
      (let* response := agent_exec tools (sdk_run sdk n user) in
       print ("Agent: " +:+ response))
      is_Exception
      (fun e =>
         print ("Agent runtime error: " +:+ exn_msg e) ;;
         let* fresh_inventory := load_inventory in
         handle_local_text_command fresh_inventory user) ;;
    continue (S n).

Definition all_tools : list tool :=
  [Tool_add_item; Tool_remove_item; Tool_check_stock; Tool_list_items].

Fixpoint make_tools (sdk : Sdk) (ts : list tool) : M unit :=
  match ts with
  | [] => ret tt
  | t :: ts' => may_raise (sdk_Tool sdk t) ;; make_tools sdk ts'
  end.

Definition msg_sdk_ready : string :=
  "Inventory Agent (SDK mode) ready. Type a request (e.g. 'add 5 apples')"
    +:+ nl +:+ "Type 'exit' to quit.".

Definition run_with_sdk (sdk : Sdk) (stdin : list input_event) : M unit :=
  let* imported :=
    try_except
      (may_raise (sdk_import sdk) ;; ret true)
      is_Exception
      (fun e =>
         print ("OpenAI Agents SDK not available or import failed: " +:+ exn_msg e) ;;
         print ("Falling back to local CLI mode." +:+ nl) ;;
         run_local_cli stdin ;;
         ret false) in
  if negb imported then ret tt
  else
    let* inventory := load_inventory in
    let tools := tool_func inventory in
    make_tools sdk all_tools ;;
    may_raise (sdk_Agent sdk) ;;
    print msg_sdk_ready ;;
    sdk_loop sdk tools 0 stdin.

(** [python inventory_agent.py ...]: the [__main__] block. *)
Definition main (argv : list string) (sdk : Sdk) (stdin : list input_event) : M unit :=
  if is_in "--local" argv then run_local_cli stdin else run_with_sdk sdk stdin.

(** ** Vocabulary of the properties *)

(** One call of [add_item], by its arguments. *)
Record AddCall := mkAddCall {
  call_name : string;
  call_qty : Z;
  call_price : pyfloat
}.

(** The calls of [calls] made one after the other on the same mapping. *)
Fixpoint add_item_calls (inventory : ref) (calls : list AddCall) : M unit :=
  match calls with
  | [] => ret tt
  | c :: calls' =>
      add_item inventory (call_name c) (call_qty c) (call_price c) ;;
      add_item_calls inventory calls'
  end.

(** The sum of the quantities the calls add. *)
Definition sum_qty (calls : list AddCall) : Z :=
  foldr (fun c acc => call_qty c + acc) 0 calls.

(** The empty state: no dictionary yet, no persisted file, nothing printed. *)
Definition initial_world : World := mkWorld ∅ None 0 [].

(** A state in which one dictionary, at reference [0], holds [d], as does
    the persisted file: the state right after [d] was loaded. *)
Definition loaded_world (d : Inventory) : World :=
  mkWorld {[ 0%nat := d ]} (Some d) 0 [].

(** No entry of the mapping has a negative quantity. *)
Definition nonneg (d : Inventory) : Prop :=
  Forall (fun it => 0 <= Item.quantity it) (Dict.values d).

(** The operation [op] keeps the quantities of the mapping it is handed
    non-negative, from every state in which they are. *)
Definition preserves_nonneg (op : ref -> M string) : Prop :=
  forall (inventory : ref) (w : World),
    nonneg (deref inventory w) ->
    nonneg (deref inventory (snd (op inventory w))).

(** Whether the character [c] occurs in [s]. *)
Fixpoint occurs (c : ascii) (s : string) : bool :=
  match s with
  | EmptyString => false
  | String c' s' => Ascii.eqb c c' || occurs c s'
  end.

(** The first byte of the dash that [list_items] puts between the fields. *)
Definition dash_byte : ascii := "226"%char.

(** The state [w] after [s] was printed. *)
Definition printed (s : string) (w : World) : World :=
  mkWorld (heap w) (file w) (saves w) (stdout w ++ [s]).

(** A line made of white space only (the empty line included). *)
Fixpoint blank (s : string) : bool :=
  match s with
  | EmptyString => true
  | String c s' => isspace c && blank s'
  end.

(** The state [w] with [f] as the content of the persisted file. *)
Definition with_file (f : option Inventory) (w : World) : World :=
  mkWorld (heap w) f (saves w) (stdout w).

(** The tools as section 4.4 of the specification words them, for comparison
    with [tool_func]: every call loads the inventory from the store and runs
    the operation on what it has just loaded. *)
Definition tool_func_reloading (t : tool) (params : Params) : M string :=
  let* inventory := load_inventory in
  tool_func inventory t params.

(** [run_with_sdk] with the tools of that wording in place of its own. *)
Definition run_with_sdk_reloading (sdk : Sdk) (stdin : list input_event) : M unit :=
  let* imported :=
    try_except
      (may_raise (sdk_import sdk) ;; ret true)
      is_Exception
      (fun e =>
         print ("OpenAI Agents SDK not available or import failed: " +:+ exn_msg e) ;;
         print ("Falling back to local CLI mode." +:+ nl) ;;
         run_local_cli stdin ;;
         ret false) in
  if negb imported then ret tt
  else
    make_tools sdk all_tools ;;
    may_raise (sdk_Agent sdk) ;;
    print msg_sdk_ready ;;
    sdk_loop sdk tool_func_reloading 0 stdin.

(** An agent that passes what a tool returned, or raised, on to its caller. *)
Definition pass_on (r : res string) : agent_run :=
  match r with
  | Ret response => Respond response
  | Raise e => Fail e
  end.

(** A collaborator whose first [agent.run] fails and whose later ones ask
    the tool [check_stock] about apples. *)
Definition flaky_sdk : Sdk :=
  mkSdk None (fun _ => None) None
    (fun n _ =>
       match n with
       | O => Fail (Exn OtherError "connection lost")
       | S _ => Call Tool_check_stock (mkParams (Some "apples") None None) pass_on
       end).

(** The state after [inventory] has been updated to [d] and saved. *)
Definition updated (inventory : ref) (d : Inventory) (w : World) : World :=
  mkWorld (<[inventory := d]> (heap w)) (Some d) (S (saves w)) (stdout w).

(** The entry [add_item] leaves under the key. *)
Definition added_entry (d : Inventory) (name : string) (qty : Z)
    (price : pyfloat) : Item.t :=
  match Dict.get (lower name) d with
  | Some it => with_quantity it (Item.quantity it + qty)
  | None => Item.mk name qty (Some price)
  end.

(** The computation [m] creates or changes no dictionary other than the
    one at [r]. *)
Definition touches_only {A} (r : ref) (m : M A) : Prop :=
  forall (w : World) (r' : ref),
    r' <> r -> heap (snd (m w)) !! r' = heap w !! r'.

(** The persisted file holds what the mapping at [inventory] holds: loading
    it now would give an equal mapping. *)
Definition synced (inventory : ref) (w : World) : Prop :=
  default [] (file w) = deref inventory w.

(** Every key of the mapping is the lower-cased name of its entry. *)
Definition keyed (d : Inventory) : Prop :=
  Forall (fun kv => kv.1 = lower (Item.name kv.2)) d.

(** What one command can have done to the state [w] before its line was
    printed: nothing, one [add_item] or one [remove_item] on [inventory]. *)
Inductive one_operation (inventory : ref) (w : World) : World -> Prop :=
  | op_none : one_operation inventory w w
  | op_add (name : string) (qty : Z) (price : pyfloat) :
      one_operation inventory w (snd (add_item inventory name qty price w))
  | op_remove (name : string) (qty : Z) :
      one_operation inventory w (snd (remove_item inventory name qty w)).


(** No line of the input is an exit command. *)
Definition no_exit_line (stdin : list input_event) : Prop :=
  Forall (fun ev =>
            match ev with
            | Line s => is_exit s = false
            | Interrupt => True
            end) stdin.

(** A collaborator whose import and constructors all succeed. *)
Definition sdk_available (sdk : Sdk) : Prop :=
  sdk_import sdk = None
  /\ (forall t, sdk_Tool sdk t = None)
  /\ sdk_Agent sdk = None.

(** ** Facts about dictionaries *)

Lemma dict_get_set_eq {V} (k : string) (v : V) (d : Dict.t V) :
  Dict.get k (Dict.set k v d) = Some v.
Proof.
  induction d as [|[k' x] d IH]; simpl.
  - by rewrite String.eqb_refl.
  - destruct (String.eqb k' k) eqn:E; simpl; by rewrite E.
Qed.

Lemma dict_get_set_ne {V} (k k' : string) (v : V) (d : Dict.t V) :
  k <> k' -> Dict.get k' (Dict.set k v d) = Dict.get k' d.
Proof.
  intros Hne. induction d as [|[k0 x] d IH]; simpl.
  - by apply String.eqb_neq in Hne as ->.
  - destruct (String.eqb k0 k) eqn:E; simpl.
    + apply String.eqb_eq in E as ->.
      by apply String.eqb_neq in Hne as ->.
    + by rewrite IH.
Qed.

Lemma dict_get_not_key {V} (k : string) (d : Dict.t V) :
  k ∉ Dict.keys d -> Dict.get k d = None.
Proof.
  induction d as [|[k' x] d IH]; simpl; [done|].
  intros Hk. apply not_elem_of_cons in Hk as [Hne Hk].
  destruct (String.eqb k' k) eqn:E.
  - apply String.eqb_eq in E. congruence.
  - by apply IH.
Qed.

Lemma dict_get_key {V} (k : string) (d : Dict.t V) :
  k ∈ Dict.keys d -> is_Some (Dict.get k d).
Proof.
  induction d as [|[k' x] d IH]; simpl.
  - by intros ?%elem_of_nil.
  - intros [->|Hk]%elem_of_cons.
    + rewrite String.eqb_refl. by eexists.
    + destruct (String.eqb k' k); [by eexists | by apply IH].
Qed.

Lemma dict_get_pop_eq {V} (k : string) (d : Dict.t V) :
  Dict.wf d -> Dict.get k (Dict.pop k d) = None.
Proof.
  unfold Dict.wf. induction d as [|[k' x] d IH]; simpl; [done|].
  intros [Hk' Hd]%NoDup_cons.
  destruct (String.eqb k' k) eqn:E; simpl.
  - apply String.eqb_eq in E as <-. by apply dict_get_not_key.
  - rewrite E. by apply IH.
Qed.

Lemma dict_get_pop_ne {V} (k k' : string) (d : Dict.t V) :
  k <> k' -> Dict.get k' (Dict.pop k d) = Dict.get k' d.
Proof.
  intros Hne. induction d as [|[k0 x] d IH]; simpl; [done|].
  destruct (String.eqb k0 k) eqn:E; simpl.
  - apply String.eqb_eq in E as ->.
    by apply String.eqb_neq in Hne as ->.
  - by rewrite IH.
Qed.

Lemma dict_keys_set_present {V} (k : string) (v : V) (d : Dict.t V) :
  is_Some (Dict.get k d) -> Dict.keys (Dict.set k v d) = Dict.keys d.
Proof.
  unfold Dict.keys. induction d as [|[k' x] d IH]; simpl.
  - by intros [? ?].
  - destruct (String.eqb k' k) eqn:E; simpl; [done|].
    intros H. f_equal. by apply IH.
Qed.

Lemma dict_keys_set_absent {V} (k : string) (v : V) (d : Dict.t V) :
  Dict.get k d = None -> Dict.keys (Dict.set k v d) = Dict.keys d ++ [k].
Proof.
  unfold Dict.keys. induction d as [|[k' x] d IH]; simpl; [done|].
  destruct (String.eqb k' k) eqn:E; simpl; [done|].
  intros H. f_equal. by apply IH.
Qed.

Lemma dict_wf_set {V} (k : string) (v : V) (d : Dict.t V) :
  Dict.wf d -> Dict.wf (Dict.set k v d).
Proof.
  unfold Dict.wf. intros Hd.
  destruct (Dict.get k d) as [x|] eqn:E.
  - by rewrite dict_keys_set_present.
  - rewrite dict_keys_set_absent by done.
    apply NoDup_app. split_and!; [done | | apply NoDup_singleton].
    intros k' Hk' ->%list_elem_of_singleton.
    apply dict_get_key in Hk' as [? ?]. congruence.
Qed.

Lemma dict_keys_pop_subseteq {V} (k : string) (d : Dict.t V) :
  Dict.keys (Dict.pop k d) `sublist_of` Dict.keys d.
Proof.
  unfold Dict.keys. induction d as [|[k' x] d IH]; simpl; [done|].
  destruct (String.eqb k' k); simpl.
  - by apply sublist_cons.
  - by apply sublist_skip.
Qed.

Lemma dict_wf_pop {V} (k : string) (d : Dict.t V) :
  Dict.wf d -> Dict.wf (Dict.pop k d).
Proof.
  unfold Dict.wf. intros Hd.
  exact (sublist_NoDup _ _ Hd (dict_keys_pop_subseteq k d)).
Qed.

(** ** What one call of an operation does *)

Lemma deref_updated (r : ref) (d : Inventory) (w : World) :
  deref r (updated r d w) = d.
Proof. unfold deref, updated; simpl. by rewrite lookup_insert_eq. Qed.

Lemma deref_updated_ne (r r' : ref) (d : Inventory) (w : World) :
  r <> r' -> deref r' (updated r d w) = deref r' w.
Proof. intros. unfold deref, updated; simpl. by rewrite lookup_insert_ne. Qed.

Lemma add_item_run (r : ref) (name : string) (qty : Z) (price : pyfloat)
    (w : World) :
  let it' := added_entry (deref r w) name qty price in
  add_item r name qty price w
  = (Ret (msg_added name qty (Item.quantity it')),
     updated r (Dict.set (lower name) it' (deref r w)) w).
Proof.
  unfold add_item, added_entry, updated, bind, read, write, save_inventory,
    subscript, deref.
  simpl. destruct (Dict.get (lower name) (default [] (heap w !! r))) as [it|];
    simpl; rewrite lookup_insert_eq; simpl; by rewrite dict_get_set_eq.
Qed.

Lemma remove_item_absent (r : ref) (name : string) (qty : Z) (w : World) :
  Dict.get (lower name) (deref r w) = None ->
  remove_item r name qty w = (Ret (msg_remove_not_found name), w).
Proof. intros E. unfold remove_item, bind, read. simpl. by rewrite E. Qed.

Lemma remove_item_all (r : ref) (name : string) (qty : Z) (it : Item.t)
    (w : World) :
  Dict.get (lower name) (deref r w) = Some it ->
  Item.quantity it <= qty ->
  remove_item r name qty w
  = (Ret (msg_removed_completely name qty),
     updated r (Dict.pop (lower name) (deref r w)) w).
Proof.
  unfold remove_item, updated, bind, read, write, save_inventory, deref.
  simpl. intros -> Hq. rewrite Z.geb_leb. apply Z.leb_le in Hq as ->. simpl.
  by rewrite lookup_insert_eq.
Qed.

Lemma remove_item_some (r : ref) (name : string) (qty : Z) (it : Item.t)
    (w : World) :
  Dict.get (lower name) (deref r w) = Some it ->
  qty < Item.quantity it ->
  remove_item r name qty w
  = (Ret (msg_removed name qty (Item.quantity it - qty)),
     updated r (Dict.set (lower name)
                  (with_quantity it (Item.quantity it - qty)) (deref r w)) w).
Proof.
  unfold remove_item, updated, bind, read, write, save_inventory, subscript,
    deref.
  simpl. intros -> Hq. rewrite Z.geb_leb. apply Z.leb_gt in Hq as ->. simpl.
  rewrite lookup_insert_eq. simpl. by rewrite dict_get_set_eq.
Qed.

Lemma check_stock_run (r : ref) (name : string) (w : World) :
  check_stock r name w
  = (Ret (match Dict.get (lower name) (deref r w) with
          | Some it => msg_stock it
          | None => msg_check_not_found name
          end), w).
Proof.
  unfold check_stock, bind, read. simpl.
  by destruct (Dict.get (lower name) (deref r w)).
Qed.

Lemma list_items_run (r : ref) (w : World) :
  list_items r w
  = (Ret (match deref r w with
          | [] => msg_empty
          | d => join nl (item_line <$> Dict.values d)
          end), w).
Proof.
  unfold list_items, bind, read. simpl. by destruct (deref r w).
Qed.

(** ** Repeated additions *)

(** After a call of [add_item] on a key that is bound, the entry has the
    same name and price and the quantity has grown by [qty]. *)
Lemma add_item_existing (r : ref) (name : string) (qty : Z) (price : pyfloat)
    (it : Item.t) (w : World) :
  Dict.get (lower name) (deref r w) = Some it ->
  exists msg w',
    add_item r name qty price w = (Ret msg, w')
    /\ Dict.get (lower name) (deref r w')
       = Some (with_quantity it (Item.quantity it + qty))
    /\ file w' = Some (deref r w').
Proof.
  intros E. rewrite add_item_run. unfold added_entry. rewrite E.
  do 2 eexists. split; [done|]. rewrite deref_updated.
  by rewrite dict_get_set_eq.
Qed.

Lemma add_item_calls_existing (r : ref) (key : string) (calls : list AddCall) :
  Forall (fun c => lower (call_name c) = key) calls ->
  forall (it : Item.t) (w : World),
    Dict.get key (deref r w) = Some it ->
    file w = Some (deref r w) ->
    exists w',
      add_item_calls r calls w = (Ret tt, w')
      /\ Dict.get key (deref r w')
         = Some (with_quantity it (Item.quantity it + sum_qty calls))
      /\ file w' = Some (deref r w').
Proof.
  induction 1 as [|c calls Hc _ IH]; intros it w E Hf; simpl.
  - exists w. split_and!; [done | | done].
    rewrite E. destruct it. unfold with_quantity. simpl. do 2 f_equal. lia.
  - subst key.
    destruct (add_item_existing r (call_name c) (call_qty c) (call_price c) it w E)
      as (msg & w1 & Hrun & E1 & Hf1).
    destruct (IH _ _ E1 Hf1) as (w' & Hrun' & E' & Hf').
    exists w'. unfold bind. rewrite Hrun. split_and!; [done | | done].
    rewrite E'. unfold with_quantity. simpl. do 2 f_equal. lia.
Qed.

(** C1. For every sequence of [add_item] calls whose names have the same
    lower-cased form, made on an inventory that does not hold that key:
    every call returns, and afterwards the inventory binds the lower-cased
    name to an entry whose quantity is the sum of the added quantities and
    whose name and price are those of the first call. The persisted file
    holds the same mapping. *)
Theorem add_item_calls_total (inventory : ref) (key : string)
    (first : AddCall) (later : list AddCall) (w : World) :
  Dict.get key (deref inventory w) = None ->
  Forall (fun c => lower (call_name c) = key) (first :: later) ->
  exists w',
    add_item_calls inventory (first :: later) w = (Ret tt, w')
    /\ Dict.get key (deref inventory w')
       = Some (Item.mk (call_name first) (sum_qty (first :: later))
                 (Some (call_price first)))
    /\ file w' = Some (deref inventory w').
Proof.
  intros E [Hfirst Hlater]%Forall_cons. subst key. simpl.
  unfold bind at 1. rewrite add_item_run. unfold added_entry. rewrite E.
  set (it := Item.mk (call_name first) (call_qty first) (Some (call_price first))).
  set (w1 := updated _ _ w).
  assert (E1 : Dict.get (lower (call_name first)) (deref inventory w1) = Some it).
  { unfold w1. rewrite deref_updated. apply dict_get_set_eq. }
  assert (Hf1 : file w1 = Some (deref inventory w1)).
  { unfold w1. by rewrite deref_updated. }
  destruct (add_item_calls_existing inventory _ later Hlater it w1 E1 Hf1)
    as (w' & Hrun & E' & Hf').
  exists w'. split_and!; done.
Qed.

Lemma add_item_calls_total_witness :
  exists w',
    add_item_calls 0%nat
      [mkAddCall "Apples" 5 zero_price; mkAddCall "APPLES" 3 (PyFloat "2.5")]
      initial_world = (Ret tt, w')
    /\ Dict.get "apples" (deref 0%nat w')
       = Some (Item.mk "Apples" 8 (Some zero_price))
    /\ file w' = Some (deref 0%nat w').
Proof.
  apply (add_item_calls_total 0%nat "apples" (mkAddCall "Apples" 5 zero_price)
           [mkAddCall "APPLES" 3 (PyFloat "2.5")] initial_world).
  - reflexivity.
  - repeat constructor.
Defined.

(** ** Removal *)

Lemma dict_mem_false {V} (k : string) (d : Dict.t V) :
  Dict.mem k d = false <-> Dict.get k d = None.
Proof. unfold Dict.mem. destruct (Dict.get k d); naive_solver. Qed.

Lemma dict_not_key {V} (k : string) (d : Dict.t V) :
  Dict.get k d = None -> k ∉ Dict.keys d.
Proof. intros E [x Hx]%dict_get_key. congruence. Qed.

(** C2. For every inventory that holds the lower-cased key of [name], and
    every [qty] at least the quantity stored there, [remove_item] returns the
    complete-removal message and leaves the inventory without that key,
    however large [qty] is. *)
Theorem remove_item_overshoot (inventory : ref) (name : string) (qty : Z)
    (it : Item.t) (w : World) :
  Dict.wf (deref inventory w) ->
  Dict.get (lower name) (deref inventory w) = Some it ->
  Item.quantity it <= qty ->
  exists w',
    remove_item inventory name qty w = (Ret (msg_removed_completely name qty), w')
    /\ Dict.mem (lower name) (deref inventory w') = false
    /\ (lower name ∉ Dict.keys (deref inventory w'))
    /\ file w' = Some (deref inventory w').
Proof.
  intros Hwf E Hq. eexists. split; [by eapply remove_item_all|].
  rewrite deref_updated.
  pose proof (dict_get_pop_eq (lower name) _ Hwf) as Hgone.
  split_and!; [by apply dict_mem_false | by apply dict_not_key | done].
Qed.

Lemma remove_item_overshoot_witness :
  exists w',
    remove_item 0%nat "Apples" 1000
      (loaded_world [("apples", Item.mk "apples" 8 (Some zero_price))])
    = (Ret (msg_removed_completely "Apples" 1000), w')
    /\ Dict.mem (lower "Apples") (deref 0%nat w') = false
    /\ (lower "Apples" ∉ Dict.keys (deref 0%nat w'))
    /\ file w' = Some (deref 0%nat w').
Proof.
  apply (remove_item_overshoot 0%nat "Apples" 1000
           (Item.mk "apples" 8 (Some zero_price))).
  - apply NoDup_singleton.
  - reflexivity.
  - simpl. lia.
Defined.

(** C6. For every inventory that does not hold the lower-cased key of
    [name], [remove_item] returns the not-found message and changes nothing:
    the mapping, the persisted file and the number of saves are as before. *)
Theorem remove_item_not_found (inventory : ref) (name : string) (qty : Z)
    (w : World) :
  Dict.mem (lower name) (deref inventory w) = false ->
  remove_item inventory name qty w = (Ret (msg_remove_not_found name), w).
Proof. intros E%dict_mem_false. by apply remove_item_absent. Qed.

Lemma remove_item_not_found_witness :
  remove_item 0%nat "Pears" 2
    (loaded_world [("apples", Item.mk "apples" 8 (Some zero_price))])
  = (Ret (msg_remove_not_found "Pears"),
     loaded_world [("apples", Item.mk "apples" 8 (Some zero_price))]).
Proof. apply (remove_item_not_found 0%nat "Pears" 2). reflexivity. Defined.

(** ** Quantities stay non-negative, short of a negative addition *)

Lemma nonneg_get (k : string) (d : Inventory) (it : Item.t) :
  nonneg d -> Dict.get k d = Some it -> 0 <= Item.quantity it.
Proof.
  unfold nonneg, Dict.values.
  induction d as [|[k' x] d IH]; simpl; [done|].
  intros [Hx Hd]%Forall_cons. destruct (String.eqb k' k).
  - by intros [= <-].
  - by apply IH.
Qed.

Lemma nonneg_set (k : string) (v : Item.t) (d : Inventory) :
  nonneg d -> 0 <= Item.quantity v -> nonneg (Dict.set k v d).
Proof.
  unfold nonneg, Dict.values. intros Hd Hv.
  induction d as [|[k' x] d IH]; simpl.
  - by repeat constructor.
  - apply Forall_cons in Hd as [Hx Hd].
    destruct (String.eqb k' k); simpl; constructor; auto.
Qed.

Lemma nonneg_pop (k : string) (d : Inventory) :
  nonneg d -> nonneg (Dict.pop k d).
Proof.
  unfold nonneg, Dict.values.
  induction d as [|[k' x] d IH]; simpl; [done|].
  intros [Hx Hd]%Forall_cons.
  destruct (String.eqb k' k); simpl; [done|]. constructor; auto.
Qed.

Lemma add_item_nonneg (qty : Z) (name : string) (price : pyfloat) :
  0 <= qty -> preserves_nonneg (fun inventory => add_item inventory name qty price).
Proof.
  intros Hq r w Hd. rewrite add_item_run. simpl. rewrite deref_updated.
  apply nonneg_set; [done|]. unfold added_entry.
  destruct (Dict.get (lower name) (deref r w)) as [it|] eqn:E; simpl; [|done].
  pose proof (nonneg_get _ _ _ Hd E). lia.
Qed.

Lemma remove_item_nonneg (qty : Z) (name : string) :
  preserves_nonneg (fun inventory => remove_item inventory name qty).
Proof.
  intros r w Hd.
  destruct (Dict.get (lower name) (deref r w)) as [it|] eqn:E.
  - destruct (Z.le_gt_cases (Item.quantity it) qty) as [Hq|Hq].
    + erewrite remove_item_all by done. simpl. rewrite deref_updated.
      by apply nonneg_pop.
    + erewrite remove_item_some by done. simpl. rewrite deref_updated.
      apply nonneg_set; [done|]. simpl. lia.
  - by rewrite remove_item_absent.
Qed.

(** C3, as stated, fails: [add_item] accepts a negative quantity and stores
    it. From the empty inventory, adding -5 apples leaves an entry of
    quantity -5. *)
Lemma add_item_negative_breaks_nonneg :
  ~ preserves_nonneg (fun inventory => add_item inventory "apples" (-5) zero_price).
Proof.
  intros H. specialize (H 0%nat initial_world).
  assert (H0 : nonneg (deref 0%nat initial_world)) by constructor.
  apply H in H0. vm_compute in H0.
  apply Forall_cons in H0 as [Hneg _]. by apply Hneg.
Qed.

(** C3, amended. From every state in which the mapping has no negative
    quantity: [remove_item], [check_stock] and [list_items] keep it so for
    all arguments, integers of either sign included, and [add_item] keeps it
    so whenever the quantity it is given is not negative. *)
Theorem quantity_nonneg_preserved (inventory : ref) (name : string)
    (add_qty remove_qty : Z) (price : pyfloat) (w : World) :
  nonneg (deref inventory w) ->
  0 <= add_qty ->
  nonneg (deref inventory (snd (add_item inventory name add_qty price w)))
  /\ nonneg (deref inventory (snd (remove_item inventory name remove_qty w)))
  /\ nonneg (deref inventory (snd (check_stock inventory name w)))
  /\ nonneg (deref inventory (snd (list_items inventory w))).
Proof.
  intros Hd Hq. split_and!.
  - by apply (add_item_nonneg add_qty name price Hq).
  - by apply (remove_item_nonneg remove_qty name).
  - by rewrite check_stock_run.
  - by rewrite list_items_run.
Qed.

Lemma quantity_nonneg_preserved_witness :
  let w := loaded_world [("apples", Item.mk "apples" 8 (Some zero_price))] in
  nonneg (deref 0%nat (snd (add_item 0%nat "Apples" 0 zero_price w)))
  /\ nonneg (deref 0%nat (snd (remove_item 0%nat "Apples" (-3) w)))
  /\ nonneg (deref 0%nat (snd (check_stock 0%nat "Apples" w)))
  /\ nonneg (deref 0%nat (snd (list_items 0%nat w))).
Proof.
  apply (quantity_nonneg_preserved 0%nat "Apples" 0 (-3) zero_price).
  - repeat constructor. simpl. lia.
  - lia.
Defined.

(** ** Listing and checking *)

Lemma occurs_app (c : ascii) (s1 s2 : string) :
  occurs c (s1 +:+ s2) = occurs c s1 || occurs c s2.
Proof.
  induction s1 as [|c' s1 IH]; simpl; [done|].
  by rewrite IH, orb_assoc.
Qed.

Lemma occurs_item_line (v : Item.t) : occurs dash_byte (item_line v) = true.
Proof.
  unfold item_line. rewrite occurs_app.
  apply orb_true_iff. right. reflexivity.
Qed.

Lemma occurs_join (c : ascii) (sep p : string) (ps : list string) :
  occurs c p = true -> occurs c (join sep (p :: ps)) = true.
Proof.
  intros Hp. destruct ps as [|q ps]; simpl; [done|].
  by rewrite occurs_app, Hp.
Qed.

Lemma list_items_not_sentinel (d : Inventory) :
  d <> [] -> join nl (item_line <$> Dict.values d) <> msg_empty.
Proof.
  destruct d as [|[k v] d]; [done|]. intros _ Heq.
  assert (H : occurs dash_byte (join nl (item_line <$> Dict.values ((k, v) :: d))) = true).
  { apply occurs_join, occurs_item_line. }
  rewrite Heq in H. discriminate H.
Qed.

Lemma dict_get_lookup {V} (d : Dict.t V) (i : nat) (k : string) :
  Dict.wf d -> Dict.keys d !! i = Some k ->
  exists v, Dict.get k d = Some v /\ Dict.values d !! i = Some v.
Proof.
  unfold Dict.wf, Dict.keys, Dict.values. revert i.
  induction d as [|[k' x] d IH]; intros i; simpl; [done|].
  intros [Hk' Hd]%NoDup_cons. destruct i as [|i]; simpl.
  - intros [= ->]. rewrite String.eqb_refl. by eexists.
  - intros Hi. destruct (String.eqb k' k) eqn:E.
    + apply String.eqb_eq in E as ->. exfalso. apply Hk'.
      by eapply list_elem_of_lookup_2.
    + by apply IH.
Qed.

(** C9. [list_items] returns and changes nothing, neither the mapping nor
    the persisted file. What it returns is the empty-inventory sentinel
    exactly when the mapping has no entry. For a mapping with entries it is
    the lines joined by line feeds, where there is one line for each key: the
    keys are distinct, there are as many lines as keys, and the i-th line
    gives the name, quantity and price of the entry under the i-th key. *)
Theorem list_items_lines (inventory : ref) (w : World) :
  Dict.wf (deref inventory w) ->
  exists (msg : string) (lines : list string),
    list_items inventory w = (Ret msg, w)
    /\ (msg = msg_empty <-> deref inventory w = [])
    /\ (deref inventory w <> [] -> msg = join nl lines)
    /\ length lines = length (Dict.keys (deref inventory w))
    /\ NoDup (Dict.keys (deref inventory w))
    /\ forall (i : nat) (k : string),
         Dict.keys (deref inventory w) !! i = Some k ->
         exists it,
           Dict.get k (deref inventory w) = Some it
           /\ lines !! i
              = Some (Item.name it +:+ " — qty: " +:+ str_int (Item.quantity it)
                        +:+ " — price: " +:+ price_str it).
Proof.
  intros Hwf. rewrite list_items_run.
  exists (match deref inventory w with
          | [] => msg_empty
          | d => join nl (item_line <$> Dict.values d)
          end), (item_line <$> Dict.values (deref inventory w)).
  split_and!; [done | | | | done |].
  - destruct (deref inventory w) as [|kv d] eqn:E; [done|]. split; [|done].
    intros Heq. by apply list_items_not_sentinel in Heq.
  - by destruct (deref inventory w).
  - unfold Dict.keys, Dict.values. by rewrite !length_fmap.
  - intros i k Hk. destruct (dict_get_lookup _ _ _ Hwf Hk) as (it & Hget & Hval).
    exists it. split; [done|]. by rewrite list_lookup_fmap, Hval.
Qed.

Lemma list_items_lines_witness :
  let w := loaded_world [("apples", Item.mk "Apples" 8 (Some zero_price));
                         ("pears", Item.mk "pears" 2 None)] in
  exists (msg : string) (lines : list string),
    list_items 0%nat w = (Ret msg, w)
    /\ (msg = msg_empty <-> deref 0%nat w = [])
    /\ (deref 0%nat w <> [] -> msg = join nl lines)
    /\ length lines = length (Dict.keys (deref 0%nat w))
    /\ NoDup (Dict.keys (deref 0%nat w))
    /\ forall (i : nat) (k : string),
         Dict.keys (deref 0%nat w) !! i = Some k ->
         exists it,
           Dict.get k (deref 0%nat w) = Some it
           /\ lines !! i
              = Some (Item.name it +:+ " — qty: " +:+ str_int (Item.quantity it)
                        +:+ " — price: " +:+ price_str it).
Proof.
  apply (list_items_lines 0%nat).
  apply (bool_decide_unpack _). vm_compute. exact I.
Defined.

Lemma dict_get_value {V} (k : string) (d : Dict.t V) (v : V) :
  Dict.get k d = Some v -> v ∈ Dict.values d.
Proof.
  unfold Dict.values. induction d as [|[k' x] d IH]; simpl; [done|].
  destruct (String.eqb k' k).
  - intros [= ->]. apply list_elem_of_here.
  - intros H. apply list_elem_of_further. by apply IH.
Qed.

(** C10. For every inventory with an entry that has no price field:
    [check_stock] on the key of that entry and [list_items] both return, and
    what they return gives the price as 0.0 and the name and quantity as
    stored. *)
Theorem missing_price_reads_zero (inventory : ref) (name : string)
    (it : Item.t) (w : World) :
  Dict.get (lower name) (deref inventory w) = Some it ->
  Item.price it = None ->
  check_stock inventory name w
  = (Ret (Item.name it +:+ ": quantity=" +:+ str_int (Item.quantity it)
            +:+ ", price=0.0"), w)
  /\ exists lines : list string,
       list_items inventory w = (Ret (join nl lines), w)
       /\ (Item.name it +:+ " — qty: " +:+ str_int (Item.quantity it)
             +:+ " — price: 0.0") ∈ lines.
Proof.
  intros E Hprice. split.
  - rewrite check_stock_run, E. unfold msg_stock, price_str. by rewrite Hprice.
  - exists (item_line <$> Dict.values (deref inventory w)).
    rewrite list_items_run. split.
    + destruct (deref inventory w); [discriminate E | done].
    + apply dict_get_value in E.
      apply (list_elem_of_fmap_2 item_line) in E.
      unfold item_line at 1, price_str in E. by rewrite Hprice in E.
Qed.

Lemma missing_price_reads_zero_witness :
  let w := loaded_world [("apples", Item.mk "Apples" 8 (Some zero_price));
                         ("pears", Item.mk "Pears" 2 None)] in
  check_stock 0%nat "PEARS" w = (Ret "Pears: quantity=2, price=0.0", w)
  /\ exists lines : list string,
       list_items 0%nat w = (Ret (join nl lines), w)
       /\ "Pears — qty: 2 — price: 0.0" ∈ lines.
Proof.
  apply (missing_price_reads_zero 0%nat "PEARS" (Item.mk "Pears" 2 None)).
  - reflexivity.
  - reflexivity.
Defined.

(** ** The command interpreter *)

Lemma bind_ret {A B} (a : A) (k : A -> M B) (w : World) :
  bind (ret a) k w = k a w.
Proof. reflexivity. Qed.

Lemma handle_unfold (inventory : ref) (text : string) (verb : string)
    (rest : list string) (w : World) :
  split (strip (lower text)) = verb :: rest ->
  handle_local_text_command inventory text w
  = (let parts := verb :: rest in
     if is_in verb ["add"; "insert"] && (3 <=? length parts)%nat then
       try_except
         (let* token := index 1 parts in
          let* qty := int token in
          let name := join " " (drop 2 parts) in
          let* msg := add_item inventory name qty zero_price in
          print msg)
         (is_kind ValueError)
         (fun _ => print msg_usage_add)
     else if is_in verb ["remove"; "delete"] && (3 <=? length parts)%nat then
       try_except
         (let* token := index 1 parts in
          let* qty := int token in
          let name := join " " (drop 2 parts) in
          let* msg := remove_item inventory name qty in
          print msg)
         (is_kind ValueError)
         (fun _ => print msg_usage_remove)
     else if is_in verb ["check"; "stock"] && (2 <=? length parts)%nat then
       let name := join " " (drop 1 parts) in
       let* msg := check_stock inventory name in
       print msg
     else if is_in verb ["list"; "show"] then
       let* msg := list_items inventory in
       print msg
     else
       print msg_not_understood) w.
Proof.
  intros Hparts. unfold handle_local_text_command. cbv zeta.
  rewrite Hparts. reflexivity.
Qed.

(** C7. For every line whose first token is add, insert, remove or delete,
    which has at least three tokens, and whose second token is not an
    integer: the interpreter prints the parse-error message of the verb and
    does nothing else. The mapping, the persisted file and the number of
    saves are as before. *)
Theorem bad_quantity_parse_error (inventory : ref) (text verb token : string)
    (rest : list string) (w : World) :
  split (strip (lower text)) = verb :: token :: rest ->
  rest <> [] ->
  is_in verb ["add"; "insert"; "remove"; "delete"] = true ->
  parse_int token = None ->
  handle_local_text_command inventory text w
  = (Ret tt,
     printed (if is_in verb ["add"; "insert"]
              then msg_usage_add else msg_usage_remove) w).
Proof.
  intros Hparts Hrest Hverb Htoken.
  rewrite (handle_unfold _ _ _ _ _ Hparts). cbv zeta.
  destruct rest as [|name1 rest]; [done|].
  change (3 <=? length (verb :: token :: name1 :: rest))%nat with true.
  rewrite !andb_true_r.
  assert (Hraise : forall (k : Z -> M unit) (handler : exn -> M unit),
    try_except
      (let* tok := index 1 (verb :: token :: name1 :: rest) in
       let* qty := int tok in k qty)
      (is_kind ValueError) handler w
    = handler (Exn ValueError "invalid literal for int() with base 10") w).
  { intros k handler. unfold try_except, bind, index, int. simpl.
    by rewrite Htoken. }
  destruct (is_in verb ["add"; "insert"]) eqn:Hadd.
  - by rewrite Hraise.
  - assert (Hrem : is_in verb ["remove"; "delete"] = true).
    { unfold is_in in *. simpl in *.
      destruct (String.eqb verb "add"), (String.eqb verb "insert");
        simpl in *; done. }
    rewrite Hrem. by rewrite Hraise.
Qed.

Lemma bad_quantity_parse_error_witness :
  handle_local_text_command 0%nat "remove abc apples"
    (loaded_world [("apples", Item.mk "apples" 8 (Some zero_price))])
  = (Ret tt,
     printed msg_usage_remove
       (loaded_world [("apples", Item.mk "apples" 8 (Some zero_price))])).
Proof.
  apply (bad_quantity_parse_error 0%nat "remove abc apples" "remove" "abc"
           ["apples"]).
  - reflexivity.
  - discriminate.
  - reflexivity.
  - reflexivity.
Defined.

Lemma isspace_not_upper (c : ascii) : isspace c = true -> lower_char c = c.
Proof.
  destruct c as [[] [] [] [] [] [] [] []]; by vm_compute.
Qed.

Lemma blank_lower (s : string) : blank s = true -> lower s = s.
Proof.
  induction s as [|c s IH]; simpl; [done|].
  intros [Hc Hs]%andb_true_iff. by rewrite isspace_not_upper, IH.
Qed.

Lemma blank_lstrip (s : string) : blank s = true -> lstrip s = EmptyString.
Proof.
  induction s as [|c s IH]; simpl; [done|].
  intros [-> Hs]%andb_true_iff. by apply IH.
Qed.

Lemma blank_no_token (s : string) :
  blank s = true -> split (strip (lower s)) = [].
Proof.
  intros Hs. rewrite blank_lower by done. unfold strip.
  by rewrite blank_lstrip.
Qed.

(** What the interpreter does with a line in which it finds a first token
    that is no verb of its grammar: it prints that it did not understand. *)
Lemma unknown_verb_reported (inventory : ref) (text verb : string)
    (rest : list string) (w : World) :
  split (strip (lower text)) = verb :: rest ->
  is_in verb ["add"; "insert"; "remove"; "delete"; "check"; "stock"; "list"; "show"]
    = false ->
  handle_local_text_command inventory text w
  = (Ret tt, printed msg_not_understood w).
Proof.
  intros Hparts Hverb. rewrite (handle_unfold _ _ _ _ _ Hparts). cbv zeta.
  unfold is_in in *. simpl in *.
  repeat (apply orb_false_iff in Hverb as [-> Hverb]). reflexivity.
Qed.

(** The same for a verb with too few tokens after it. *)
Lemma short_command_reported (inventory : ref) (text verb : string)
    (rest : list string) (w : World) :
  split (strip (lower text)) = verb :: rest ->
  (is_in verb ["add"; "insert"; "remove"; "delete"] = true
   /\ (length rest < 2)%nat)
  \/ (is_in verb ["check"; "stock"] = true /\ rest = []) ->
  handle_local_text_command inventory text w
  = (Ret tt, printed msg_not_understood w).
Proof.
  intros Hparts Hshort. rewrite (handle_unfold _ _ _ _ _ Hparts). cbv zeta.
  unfold is_in in *. simpl in Hshort.
  destruct Hshort as [[Hverb Hlen]|[Hverb ->]].
  - destruct rest as [|a [|b rest]]; [| |simpl in Hlen; lia];
      repeat (apply orb_true_iff in Hverb as [->%String.eqb_eq|Hverb]);
      try reflexivity; discriminate.
  - repeat (apply orb_true_iff in Hverb as [->%String.eqb_eq|Hverb]);
      try reflexivity; discriminate.
Qed.

(** A line of white space only has no token, so the first test of the
    interpreter, which reads [parts[0]], raises [IndexError]. *)
Lemma blank_line_no_verb (inventory : ref) (text : string) (w : World) :
  blank text = true ->
  handle_local_text_command inventory text w
  = (Raise (Exn IndexError "list index out of range"), w).
Proof.
  intros Hb. unfold handle_local_text_command. cbv zeta.
  by rewrite blank_no_token.
Qed.

Lemma local_loop_line (inventory : ref) (cmd : string)
    (rest : list input_event) (w : World) :
  local_loop inventory (Line cmd :: rest) w
  = (if is_empty cmd then local_loop inventory rest
     else if is_exit cmd then print "Goodbye."
     else handle_local_text_command inventory cmd ;; local_loop inventory rest) w.
Proof. reflexivity. Qed.

Lemma blank_not_exit (text : string) : blank text = true -> is_exit text = false.
Proof.
  intros Hb. unfold is_exit, strip. by rewrite blank_lstrip.
Qed.

(** A line of white space that is not the empty line ends the local command
    loop with the exception of the interpreter. *)
Lemma local_loop_blank_line (inventory : ref) (text : string)
    (rest : list input_event) (w : World) :
  blank text = true -> is_empty text = false ->
  local_loop inventory (Line text :: rest) w
  = (Raise (Exn IndexError "list index out of range"), w).
Proof.
  intros Hb Hne. rewrite local_loop_line, Hne, blank_not_exit by done.
  unfold bind. by rewrite blank_line_no_verb.
Qed.

(** C5, evaluated where it fails. On a line of three spaces the interpreter
    prints nothing and raises [IndexError]. [run_local_cli] lets only the
    empty line through without a call of the interpreter, and has no handler
    around that call: reading this line ends the session with the exception,
    whatever follows on the input. *)
Theorem blank_line_raises_IndexError (inventory : ref)
    (later : list input_event) (w : World) :
  handle_local_text_command inventory "   " w
  = (Raise (Exn IndexError "list index out of range"), w)
  /\ fst (run_local_cli (Line "   " :: later) w)
     = Raise (Exn IndexError "list index out of range")
  /\ stdout (snd (run_local_cli (Line "   " :: later) w))
     = stdout w ++ [msg_cli_ready].
Proof.
  split; [by apply blank_line_no_verb|].
  unfold run_local_cli, bind.
  destruct (load_inventory w) as [[r|e] w1] eqn:Hload.
  - assert (Hout : stdout w1 = stdout w).
    { unfold load_inventory, new_dict in Hload.
      destruct (file w); by injection Hload as _ <-. }
    unfold print at 1. rewrite local_loop_blank_line by done.
    simpl. by rewrite Hout.
  - unfold load_inventory, new_dict in Hload. by destruct (file w).
Qed.

(** ** Which dictionary a computation touches *)

Create HintDb frame.

Lemma touches_ret {A} (r : ref) (a : A) : touches_only r (ret a).
Proof. by intros w r' _. Qed.

Lemma touches_raise {A} (r : ref) (e : exn) : touches_only r (@raise A e).
Proof. by intros w r' _. Qed.

Lemma touches_print (r : ref) (s : string) : touches_only r (print s).
Proof. by intros w r' _. Qed.

Lemma touches_read (r r0 : ref) : touches_only r (read r0).
Proof. by intros w r' _. Qed.

Lemma touches_save (r r0 : ref) : touches_only r (save_inventory r0).
Proof. by intros w r' _. Qed.

Lemma touches_write (r : ref) (d : Inventory) : touches_only r (write r d).
Proof. intros w r' Hr. simpl. by rewrite lookup_insert_ne. Qed.

Lemma touches_bind {A B} (r : ref) (m : M A) (k : A -> M B) :
  touches_only r m -> (forall a, touches_only r (k a)) ->
  touches_only r (bind m k).
Proof.
  intros Hm Hk w r' Hr. unfold bind. specialize (Hm w r' Hr).
  destruct (m w) as [[a|e] w1]; simpl in *; [|done].
  by rewrite Hk.
Qed.

Lemma touches_try_except {A} (r : ref) (body : M A) (catches : exn -> bool)
    (handler : exn -> M A) :
  touches_only r body -> (forall e, touches_only r (handler e)) ->
  touches_only r (try_except body catches handler).
Proof.
  intros Hb Hh w r' Hr. unfold try_except. specialize (Hb w r' Hr).
  destruct (body w) as [[a|e] w1]; simpl in *; [done|].
  destruct (catches e); [|done]. by rewrite Hh.
Qed.

Lemma touches_subscript (r : ref) (key : string) (d : Inventory) :
  touches_only r (subscript key d).
Proof. unfold subscript. destruct (Dict.get key d); by intros w r' _. Qed.

Lemma touches_index (r : ref) (i : nat) (parts : list string) :
  touches_only r (index i parts).
Proof. unfold index. destruct (parts !! i); by intros w r' _. Qed.

Lemma touches_int (r : ref) (s : string) : touches_only r (int s).
Proof. unfold int. destruct (parse_int s); by intros w r' _. Qed.

#[local] Hint Resolve touches_ret touches_raise touches_print touches_read
  touches_save touches_write touches_subscript touches_index touches_int : frame.

Ltac frame_step :=
  first
    [ solve [eauto with frame]
    | apply touches_bind; [|intros ?]
    | apply touches_try_except; [|intros ?] ].

Lemma touches_add_item (r : ref) (name : string) (qty : Z) (price : pyfloat) :
  touches_only r (add_item r name qty price).
Proof.
  unfold add_item. cbv zeta. repeat frame_step.
  destruct (Dict.get _ _); eauto with frame.
Qed.

Lemma touches_remove_item (r : ref) (name : string) (qty : Z) :
  touches_only r (remove_item r name qty).
Proof.
  unfold remove_item. cbv zeta. frame_step; [eauto with frame|].
  destruct (Dict.get _ _) as [it|]; [|eauto with frame].
  destruct (qty >=? Item.quantity it); repeat frame_step.
Qed.

Lemma touches_check_stock (r : ref) (name : string) :
  touches_only r (check_stock r name).
Proof.
  unfold check_stock. cbv zeta. frame_step; [eauto with frame|].
  destruct (Dict.get _ _); eauto with frame.
Qed.

Lemma touches_list_items (r : ref) : touches_only r (list_items r).
Proof.
  unfold list_items. apply touches_bind; [eauto with frame|].
  intros d. destruct d; eauto with frame.
Qed.

#[local] Hint Resolve touches_add_item touches_remove_item touches_check_stock
  touches_list_items : frame.

Lemma touches_handle (r : ref) (text : string) :
  touches_only r (handle_local_text_command r text).
Proof.
  unfold handle_local_text_command. cbv zeta.
  apply touches_bind; [eauto with frame|]. intros verb.
  repeat match goal with
         | |- touches_only _ (if ?c then _ else _) => destruct c
         end; repeat frame_step.
Qed.

Lemma touches_tool_func (inventory : ref) (t : tool) (params : Params) :
  touches_only inventory (tool_func inventory t params).
Proof.
  destruct t, params as [[name|] qty price]; simpl;
    unfold sdk_add_item, sdk_remove_item, sdk_check_stock, sdk_list_items;
    simpl; eauto with frame.
Qed.

Lemma touches_agent_exec (inventory : ref) (a : agent_run) :
  touches_only inventory (agent_exec (tool_func inventory) a).
Proof.
  induction a as [response|e|t params k IH]; simpl; [eauto with frame..|].
  intros w r' Hr.
  pose proof (touches_tool_func inventory t params w r' Hr) as Hstep.
  destruct (tool_func inventory t params w) as [r1 w1]. simpl in *.
  by rewrite IH.
Qed.

(** The operations keep the keys of the mapping distinct. *)
Lemma add_item_wf (r : ref) (name : string) (qty : Z) (price : pyfloat)
    (w : World) :
  Dict.wf (deref r w) -> Dict.wf (deref r (snd (add_item r name qty price w))).
Proof.
  intros Hwf. rewrite add_item_run. simpl. rewrite deref_updated.
  by apply dict_wf_set.
Qed.

Lemma remove_item_wf (r : ref) (name : string) (qty : Z) (w : World) :
  Dict.wf (deref r w) -> Dict.wf (deref r (snd (remove_item r name qty w))).
Proof.
  intros Hwf.
  destruct (Dict.get (lower name) (deref r w)) as [it|] eqn:E.
  - destruct (Z.le_gt_cases (Item.quantity it) qty) as [Hq|Hq].
    + erewrite remove_item_all by done. simpl. rewrite deref_updated.
      by apply dict_wf_pop.
    + erewrite remove_item_some by done. simpl. rewrite deref_updated.
      by apply dict_wf_set.
  - by rewrite remove_item_absent.
Qed.

(** ** The SDK front end *)

(** What a tool answers, and what it leaves in the heap, does not depend on
    the persisted file. *)
Lemma tool_func_heap (inventory : ref) (t : tool) (params : Params)
    (w1 w2 : World) :
  heap w1 = heap w2 ->
  fst (tool_func inventory t params w1) = fst (tool_func inventory t params w2)
  /\ heap (snd (tool_func inventory t params w1))
     = heap (snd (tool_func inventory t params w2)).
Proof.
  intros Hh.
  assert (Hd : deref inventory w1 = deref inventory w2)
    by (unfold deref; by rewrite Hh).
  destruct t, params as [[name|] qty price]; simpl;
    unfold sdk_add_item, sdk_remove_item, sdk_check_stock, sdk_list_items;
    simpl; try done.
  - rewrite !add_item_run. simpl. unfold updated. simpl. by rewrite Hd, Hh.
  - destruct (Dict.get (lower name) (deref inventory w2)) as [it|] eqn:E.
    + destruct (Z.le_gt_cases (Item.quantity it) (default 0 qty)) as [Hq|Hq].
      * rewrite !(remove_item_all _ _ _ it) by (done || by rewrite Hd).
        simpl. by rewrite Hd, Hh.
      * rewrite !(remove_item_some _ _ _ it) by (done || by rewrite Hd).
        simpl. by rewrite Hd, Hh.
    + rewrite !remove_item_absent by (done || by rewrite Hd). done.
  - rewrite !check_stock_run. simpl. by rewrite Hd.
  - rewrite !list_items_run. simpl. by rewrite Hd.
  - rewrite !list_items_run. simpl. by rewrite Hd.
Qed.

Lemma agent_exec_heap (inventory : ref) (a : agent_run) :
  forall w1 w2 : World,
    heap w1 = heap w2 ->
    fst (agent_exec (tool_func inventory) a w1)
    = fst (agent_exec (tool_func inventory) a w2)
    /\ heap (snd (agent_exec (tool_func inventory) a w1))
       = heap (snd (agent_exec (tool_func inventory) a w2)).
Proof.
  induction a as [response|e|t params k IH]; intros w1 w2 Hh; simpl; [done..|].
  destruct (tool_func_heap inventory t params w1 w2 Hh) as [Hres Hheap].
  destruct (tool_func inventory t params w1) as [r1 w1'].
  destruct (tool_func inventory t params w2) as [r2 w2'].
  simpl in *. subst r2. by apply IH.
Qed.

(** The local interpretation of a request whose [agent.run] failed works on
    a dictionary of its own: it leaves the mapping of the tools as it was,
    whatever it writes to the persisted file. *)
Lemma fallback_leaves_shared_mapping (inventory : ref) (user : string)
    (w : World) :
  is_Some (heap w !! inventory) ->
  deref inventory
    (snd ((let* fresh_inventory := load_inventory in
           handle_local_text_command fresh_inventory user) w))
  = deref inventory w.
Proof.
  intros Hlive. unfold bind.
  destruct (load_inventory w) as [[r|e] w1] eqn:Hload.
  - assert (Hw1 : inventory <> r /\ heap w1 !! inventory = heap w !! inventory).
    { unfold load_inventory, new_dict in Hload.
      assert (Hr : fresh (dom (heap w)) <> inventory).
      { intros Heq. apply (is_fresh (dom (heap w))). rewrite Heq.
        by apply elem_of_dom. }
      destruct (file w); injection Hload as <- <-; simpl;
        by rewrite lookup_insert_ne. }
    destruct Hw1 as [Hr Hsame]. cbv beta iota. unfold deref.
    pose proof (touches_handle r user) as Hframe. unfold touches_only in Hframe.
    by rewrite Hframe, Hsame.
  - unfold load_inventory, new_dict in Hload. by destruct (file w).
Qed.

(** C4, as stated, fails. The first request of this session fails in the
    agent and is interpreted locally, on a mapping loaded for the occasion,
    which puts 5 apples in the persisted file. On the second request the
    agent calls [check_stock]: the tool answers that there are no apples,
    from the mapping [run_with_sdk] loaded at its start. A tool loading the
    inventory when it is called answers 5. *)
Lemma sdk_tools_miss_fallback_write :
  let stdin := [Line "add 5 apples"; Line "how many apples?"; Line "exit"] in
  let ran := snd (run_with_sdk flaky_sdk stdin initial_world) in
  let reloading := snd (run_with_sdk_reloading flaky_sdk stdin initial_world) in
  stdout ran
  = [msg_sdk_ready; "Agent runtime error: connection lost";
     "Added 5 x apples. New qty: 5"; "Agent: Item 'apples' not found.";
     "Goodbye."]
  /\ stdout reloading
     = [msg_sdk_ready; "Agent runtime error: connection lost";
        "Added 5 x apples. New qty: 5"; "Agent: apples: quantity=5, price=0.0";
        "Goodbye."]
  /\ file ran = Some [("apples", Item.mk "apples" 5 (Some zero_price))]
  /\ stdout ran <> stdout reloading.
Proof.
  vm_compute. split_and!; [reflexivity..|]. discriminate.
Qed.

(** C4, amended. Every tool call the agent makes during a request works on
    the one mapping [inventory] that [run_with_sdk] loaded before it built
    the tools: whatever the persisted file holds when the request starts,
    the agent gets the same answers and the mapping ends the same, and no
    other dictionary is created or changed. *)
Theorem sdk_tools_use_shared_mapping (inventory : ref) (a : agent_run)
    (f : option Inventory) (w : World) :
  fst (agent_exec (tool_func inventory) a w)
  = fst (agent_exec (tool_func inventory) a (with_file f w))
  /\ heap (snd (agent_exec (tool_func inventory) a w))
     = heap (snd (agent_exec (tool_func inventory) a (with_file f w)))
  /\ delete inventory (heap (snd (agent_exec (tool_func inventory) a w)))
     = delete inventory (heap w).
Proof.
  destruct (agent_exec_heap inventory a w (with_file f w) eq_refl) as [Hres Hheap].
  split_and!; [done..|]. apply map_eq. intros r.
  destruct (decide (r = inventory)) as [->|Hr].
  - by rewrite !lookup_delete_eq.
  - rewrite !lookup_delete_ne by done. by apply touches_agent_exec.
Qed.

(** When the import fails with an [Exception], [run_with_sdk] prints the
    two lines of its handler and is [run_local_cli] from there on. *)
Lemma import_failure_falls_back (sdk : Sdk) (e : exn)
    (stdin : list input_event) (w : World) :
  sdk_import sdk = Some e ->
  is_Exception e = true ->
  run_with_sdk sdk stdin w
  = (print ("OpenAI Agents SDK not available or import failed: " +:+ exn_msg e) ;;
     print ("Falling back to local CLI mode." +:+ nl) ;;
     run_local_cli stdin) w.
Proof.
  intros Himport Hexc. unfold run_with_sdk, try_except, bind at 1 2.
  rewrite Himport. simpl. rewrite Hexc.
  unfold bind, print. simpl.
  by destruct (run_local_cli stdin _) as [[[]|e'] w'].
Qed.

(** C8, evaluated where it fails. When the import and the four [Tool]
    constructors succeed and the [Agent] constructor raises [e],
    [run_with_sdk] ends with [e]: the call is outside the [try] of the
    import, nothing is printed, and no line of the input is read or
    interpreted. *)
Theorem agent_constructor_failure_propagates (e : exn)
    (run : nat -> string -> agent_run) (stdin : list input_event) (w : World) :
  let sdk := mkSdk None (fun _ => None) (Some e) run in
  fst (run_with_sdk sdk stdin w) = Raise e
  /\ stdout (snd (run_with_sdk sdk stdin w)) = stdout w
  /\ file (snd (run_with_sdk sdk stdin w)) = file w.
Proof.
  unfold run_with_sdk, try_except, bind, load_inventory, new_dict. simpl.
  by destruct (file w).
Qed.

(** ** More on the four operations *)

Lemma dict_set_same {V} (k : string) (v : V) (d : Dict.t V) :
  Dict.get k d = Some v -> Dict.set k v d = d.
Proof.
  induction d as [|[k' x] d IH]; simpl; [done|].
  destruct (String.eqb k' k).
  - by intros [= ->].
  - intros H. f_equal. by apply IH.
Qed.

Lemma dict_set_set {V} (k : string) (v1 v2 : V) (d : Dict.t V) :
  Dict.set k v2 (Dict.set k v1 d) = Dict.set k v2 d.
Proof.
  induction d as [|[k' x] d IH]; simpl.
  - by rewrite String.eqb_refl.
  - destruct (String.eqb k' k) eqn:E; simpl; rewrite E; [done|].
    f_equal. apply IH.
Qed.

Lemma with_quantity_same (it : Item.t) :
  with_quantity it (Item.quantity it) = it.
Proof. by destruct it. Qed.

(** [add_item] never raises; it saves once, and the persisted file then
    holds exactly the mapping it leaves. Nothing is printed. *)
Theorem add_item_saves (inventory : ref) (name : string) (qty : Z)
    (price : pyfloat) (w : World) :
  exists (msg : string) (w' : World),
    add_item inventory name qty price w = (Ret msg, w')
    /\ file w' = Some (deref inventory w')
    /\ saves w' = S (saves w)
    /\ stdout w' = stdout w.
Proof.
  rewrite add_item_run. do 2 eexists. split; [done|].
  by rewrite deref_updated.
Qed.

(** [add_item] and [remove_item] on one item leave the entry of every other
    key as it was. *)
Theorem other_entries_untouched (inventory : ref) (name other : string)
    (qty : Z) (price : pyfloat) (w : World) :
  other <> lower name ->
  Dict.get other (deref inventory (snd (add_item inventory name qty price w)))
  = Dict.get other (deref inventory w)
  /\ Dict.get other (deref inventory (snd (remove_item inventory name qty w)))
     = Dict.get other (deref inventory w).
Proof.
  intros Hne. split.
  - rewrite add_item_run. simpl. rewrite deref_updated.
    by apply dict_get_set_ne.
  - destruct (Dict.get (lower name) (deref inventory w)) as [it|] eqn:E.
    + destruct (Z.le_gt_cases (Item.quantity it) qty) as [Hq|Hq].
      * erewrite remove_item_all by done. simpl. rewrite deref_updated.
        by apply dict_get_pop_ne.
      * erewrite remove_item_some by done. simpl. rewrite deref_updated.
        by apply dict_get_set_ne.
    + by rewrite remove_item_absent.
Qed.

Lemma other_entries_untouched_witness :
  let w := loaded_world [("apples", Item.mk "Apples" 8 (Some zero_price));
                         ("pears", Item.mk "pears" 2 None)] in
  Dict.get "pears" (deref 0%nat (snd (add_item 0%nat "APPLES" 4 zero_price w)))
  = Dict.get "pears" (deref 0%nat w)
  /\ Dict.get "pears" (deref 0%nat (snd (remove_item 0%nat "APPLES" 4 w)))
     = Dict.get "pears" (deref 0%nat w).
Proof.
  apply (other_entries_untouched 0%nat "APPLES" "pears" 4 zero_price).
  discriminate.
Defined.

(** [add_item] keeps the order of the keys: the key of an item already in the
    mapping stays where it is, the key of a new item goes last. *)
Theorem add_item_keeps_order (inventory : ref) (name : string) (qty : Z)
    (price : pyfloat) (w : World) :
  Dict.keys (deref inventory (snd (add_item inventory name qty price w)))
  = Dict.keys (deref inventory w)
    ++ (if Dict.mem (lower name) (deref inventory w) then [] else [lower name]).
Proof.
  rewrite add_item_run. simpl. rewrite deref_updated. unfold Dict.mem.
  destruct (Dict.get (lower name) (deref inventory w)) as [it|] eqn:E.
  - rewrite dict_keys_set_present by (by eexists). by rewrite app_nil_r.
  - by rewrite dict_keys_set_absent.
Qed.

(** Adding a quantity to an item that is in stock with a positive quantity
    and removing the same quantity again gives back the mapping as it was,
    in memory and in the persisted file; the removal reports the old
    quantity as remaining. *)
Theorem add_then_remove_restores (inventory : ref) (name : string) (qty : Z)
    (price : pyfloat) (it : Item.t) (w : World) :
  Dict.get (lower name) (deref inventory w) = Some it ->
  0 < Item.quantity it ->
  exists w',
    (add_item inventory name qty price ;; remove_item inventory name qty) w
    = (Ret (msg_removed name qty (Item.quantity it)), w')
    /\ deref inventory w' = deref inventory w
    /\ file w' = Some (deref inventory w).
Proof.
  intros E Hpos. unfold bind. rewrite add_item_run. unfold added_entry.
  rewrite E.
  set (it1 := with_quantity it (Item.quantity it + qty)).
  set (w1 := updated _ _ w).
  assert (E1 : Dict.get (lower name) (deref inventory w1) = Some it1).
  { unfold w1. rewrite deref_updated. apply dict_get_set_eq. }
  rewrite (remove_item_some _ _ _ it1 w1 E1) by (simpl; lia).
  assert (Hqty : Item.quantity it1 - qty = Item.quantity it) by (simpl; lia).
  rewrite Hqty.
  assert (Hback : Dict.set (lower name) (with_quantity it1 (Item.quantity it))
                    (deref inventory w1) = deref inventory w).
  { unfold w1. rewrite deref_updated, dict_set_set.
    change (with_quantity it1 (Item.quantity it))
      with (with_quantity it (Item.quantity it)).
    rewrite with_quantity_same. by apply dict_set_same. }
  rewrite Hback. eexists. split_and!; [done | | done].
  by rewrite deref_updated.
Qed.

Lemma add_then_remove_restores_witness :
  let w := loaded_world [("apples", Item.mk "Apples" 8 (Some zero_price))] in
  exists w',
    (add_item 0%nat "apples" 5 zero_price ;; remove_item 0%nat "apples" 5) w
    = (Ret (msg_removed "apples" 5 8), w')
    /\ deref 0%nat w' = deref 0%nat w
    /\ file w' = Some (deref 0%nat w).
Proof.
  apply (add_then_remove_restores 0%nat "apples" 5 zero_price
           (Item.mk "Apples" 8 (Some zero_price))).
  - reflexivity.
  - simpl. lia.
Defined.

(** After an item was removed completely, [check_stock] under any casing of
    its name answers that it is not found. *)
Theorem removed_item_not_found (inventory : ref) (name name' : string)
    (qty : Z) (it : Item.t) (w : World) :
  Dict.wf (deref inventory w) ->
  Dict.get (lower name) (deref inventory w) = Some it ->
  Item.quantity it <= qty ->
  lower name' = lower name ->
  fst ((remove_item inventory name qty ;; check_stock inventory name') w)
  = Ret (msg_check_not_found name').
Proof.
  intros Hwf E Hq Hname. unfold bind.
  rewrite (remove_item_all _ _ _ it w E Hq), check_stock_run.
  rewrite deref_updated, Hname. by rewrite dict_get_pop_eq.
Qed.

Lemma removed_item_not_found_witness :
  fst ((remove_item 0%nat "apples" 10 ;; check_stock 0%nat "Apples")
         (loaded_world [("apples", Item.mk "apples" 8 (Some zero_price))]))
  = Ret (msg_check_not_found "Apples").
Proof.
  apply (removed_item_not_found 0%nat "apples" "Apples" 10
           (Item.mk "apples" 8 (Some zero_price))).
  - apply NoDup_singleton.
  - reflexivity.
  - simpl. lia.
  - reflexivity.
Defined.

(** After [add_item], [check_stock] under any casing of the name reports the
    entry that [add_item] left: for a new item the name, quantity and price
    just given, for an item that was there its stored name and price with
    the quantity grown by [qty]. *)
Theorem added_item_in_stock (inventory : ref) (name name' : string) (qty : Z)
    (price : pyfloat) (w : World) :
  lower name' = lower name ->
  fst ((add_item inventory name qty price ;; check_stock inventory name') w)
  = Ret (msg_stock
           (match Dict.get (lower name) (deref inventory w) with
            | Some it => Item.mk (Item.name it) (Item.quantity it + qty) (Item.price it)
            | None => Item.mk name qty (Some price)
            end)).
Proof.
  intros Hname. unfold bind. rewrite add_item_run, check_stock_run.
  rewrite deref_updated, Hname, dict_get_set_eq. unfold added_entry.
  by destruct (Dict.get (lower name) (deref inventory w)).
Qed.

Lemma added_item_in_stock_witness :
  fst ((add_item 0%nat "apples" 3 (PyFloat "2.5") ;; check_stock 0%nat "APPLES")
         (loaded_world [("apples", Item.mk "Apples" 5 (Some zero_price))]))
  = Ret "Apples: quantity=8, price=0.0".
Proof.
  apply (added_item_in_stock 0%nat "apples" "APPLES" 3 (PyFloat "2.5")).
  reflexivity.
Defined.

Lemma keyed_get (k : string) (d : Inventory) (it : Item.t) :
  keyed d -> Dict.get k d = Some it -> k = lower (Item.name it).
Proof.
  unfold keyed. induction d as [|[k' x] d IH]; simpl; [done|].
  intros [Hx Hd]%Forall_cons. destruct (String.eqb k' k) eqn:E.
  - intros [= <-]. apply String.eqb_eq in E as <-. done.
  - by apply IH.
Qed.

Lemma keyed_set (k : string) (v : Item.t) (d : Inventory) :
  keyed d -> k = lower (Item.name v) -> keyed (Dict.set k v d).
Proof.
  unfold keyed. intros Hd Hv. induction d as [|[k' x] d IH]; simpl.
  - by repeat constructor.
  - apply Forall_cons in Hd as [Hx Hd].
    destruct (String.eqb k' k) eqn:E; constructor; auto.
    apply String.eqb_eq in E as ->. done.
Qed.

Lemma keyed_pop (k : string) (d : Inventory) : keyed d -> keyed (Dict.pop k d).
Proof.
  unfold keyed. induction d as [|[k' x] d IH]; simpl; [done|].
  intros [Hx Hd]%Forall_cons.
  destruct (String.eqb k' k); [done|]. constructor; auto.
Qed.

Lemma add_item_keyed (r : ref) (name : string) (qty : Z) (price : pyfloat)
    (w : World) :
  keyed (deref r w) -> keyed (deref r (snd (add_item r name qty price w))).
Proof.
  intros Hk. rewrite add_item_run. simpl. rewrite deref_updated.
  apply keyed_set; [done|]. unfold added_entry.
  destruct (Dict.get (lower name) (deref r w)) as [it|] eqn:E; simpl; [|done].
  by eapply keyed_get.
Qed.

Lemma remove_item_keyed (r : ref) (name : string) (qty : Z) (w : World) :
  keyed (deref r w) -> keyed (deref r (snd (remove_item r name qty w))).
Proof.
  intros Hk.
  destruct (Dict.get (lower name) (deref r w)) as [it|] eqn:E.
  - destruct (Z.le_gt_cases (Item.quantity it) qty) as [Hq|Hq].
    + erewrite remove_item_all by done. simpl. rewrite deref_updated.
      by apply keyed_pop.
    + erewrite remove_item_some by done. simpl. rewrite deref_updated.
      apply keyed_set; [done|]. simpl. by eapply keyed_get.
  - by rewrite remove_item_absent.
Qed.

(** In a mapping where every key is the lower-cased name of its entry,
    [add_item] and [remove_item] keep it so. *)
Theorem key_is_lowercased_name (inventory : ref) (name : string) (qty : Z)
    (price : pyfloat) (w : World) :
  keyed (deref inventory w) ->
  keyed (deref inventory (snd (add_item inventory name qty price w)))
  /\ keyed (deref inventory (snd (remove_item inventory name qty w))).
Proof.
  intros Hk. split; [by apply add_item_keyed | by apply remove_item_keyed].
Qed.

Lemma key_is_lowercased_name_witness :
  let w := loaded_world [("apples", Item.mk "Apples" 8 (Some zero_price))] in
  keyed (deref 0%nat (snd (add_item 0%nat "Green Pears" 4 zero_price w)))
  /\ keyed (deref 0%nat (snd (remove_item 0%nat "Green Pears" 4 w))).
Proof.
  apply (key_is_lowercased_name 0%nat "Green Pears" 4 zero_price).
  repeat constructor.
Defined.

(** A removal of less than the stock keeps the entry in its place with its
    name and price, takes [qty] off the quantity and saves. What remains is
    positive, so [remove_item] never leaves an entry of quantity zero; a
    negative [qty] raises the stock. *)
Theorem remove_item_partial (inventory : ref) (name : string) (qty : Z)
    (it : Item.t) (w : World) :
  Dict.get (lower name) (deref inventory w) = Some it ->
  qty < Item.quantity it ->
  exists w',
    remove_item inventory name qty w
    = (Ret (msg_removed name qty (Item.quantity it - qty)), w')
    /\ Dict.get (lower name) (deref inventory w')
       = Some (Item.mk (Item.name it) (Item.quantity it - qty) (Item.price it))
    /\ 0 < Item.quantity it - qty
    /\ Dict.keys (deref inventory w') = Dict.keys (deref inventory w)
    /\ file w' = Some (deref inventory w').
Proof.
  intros E Hq. eexists. split; [by apply remove_item_some|].
  rewrite deref_updated. split_and!.
  - by rewrite dict_get_set_eq.
  - lia.
  - apply dict_keys_set_present. by eexists.
  - done.
Qed.

Lemma remove_item_partial_witness :
  exists w',
    remove_item 0%nat "Apples" (-2)
      (loaded_world [("apples", Item.mk "apples" 8 (Some zero_price))])
    = (Ret (msg_removed "Apples" (-2) (8 - -2)), w')
    /\ Dict.get (lower "Apples") (deref 0%nat w')
       = Some (Item.mk "apples" (8 - -2) (Some zero_price))
    /\ 0 < 8 - -2
    /\ Dict.keys (deref 0%nat w')
       = Dict.keys (deref 0%nat
           (loaded_world [("apples", Item.mk "apples" 8 (Some zero_price))]))
    /\ file w' = Some (deref 0%nat w').
Proof.
  apply (remove_item_partial 0%nat "Apples" (-2)
           (Item.mk "apples" 8 (Some zero_price))).
  - reflexivity.
  - simpl. lia.
Defined.

(** ** More on the command interpreter *)

Lemma isspace_lower_char (c : ascii) : isspace (lower_char c) = isspace c.
Proof. destruct c as [[] [] [] [] [] [] [] []]; by vm_compute. Qed.

Lemma lower_char_idem (c : ascii) : lower_char (lower_char c) = lower_char c.
Proof. destruct c as [[] [] [] [] [] [] [] []]; by vm_compute. Qed.

Lemma is_empty_lower (s : string) : is_empty (lower s) = is_empty s.
Proof. by destruct s. Qed.

Lemma lower_app (s1 s2 : string) : lower (s1 +:+ s2) = lower s1 +:+ lower s2.
Proof. induction s1 as [|c s1 IH]; simpl; [done|]. by rewrite IH. Qed.

Lemma lower_idem (s : string) : lower (lower s) = lower s.
Proof.
  induction s as [|c s IH]; simpl; [done|]. by rewrite lower_char_idem, IH.
Qed.

Lemma lower_lstrip (s : string) : lstrip (lower s) = lower (lstrip s).
Proof.
  induction s as [|c s IH]; simpl; [done|].
  rewrite isspace_lower_char. by destruct (isspace c).
Qed.

Lemma lower_rstrip (s : string) : rstrip (lower s) = lower (rstrip s).
Proof.
  induction s as [|c s IH]; simpl; [done|].
  rewrite isspace_lower_char, IH, is_empty_lower.
  by destruct (isspace c && is_empty (rstrip s)).
Qed.

Lemma lower_split_from (cur s : string) :
  split_from (lower cur) (lower s) = lower <$> split_from cur s.
Proof.
  revert cur. induction s as [|c s IH]; intros cur; simpl.
  - rewrite is_empty_lower. by destruct (is_empty cur).
  - rewrite isspace_lower_char, is_empty_lower.
    destruct (isspace c).
    + destruct (is_empty cur); simpl; [apply (IH EmptyString)|].
      f_equal. apply (IH EmptyString).
    + rewrite <- IH. by rewrite lower_app.
Qed.

Lemma lower_join (sep : string) (parts : list string) :
  lower (join sep parts) = join (lower sep) (lower <$> parts).
Proof.
  induction parts as [|p [|q parts] IH]; simpl in *; [done..|].
  by rewrite !lower_app, IH.
Qed.

(** The tokens the interpreter works with are those of the line as typed,
    lower-cased. *)
Lemma tokens_lowered (text : string) :
  split (strip (lower text)) = lower <$> split (strip text).
Proof.
  unfold strip, split. rewrite lower_lstrip, lower_rstrip.
  apply (lower_split_from EmptyString).
Qed.

Lemma rest_of_line_lowered (text : string) (n : nat) :
  let name := join " " (drop n (split (strip (lower text)))) in
  lower name = name.
Proof.
  simpl. rewrite tokens_lowered, lower_join, <- fmap_drop, <- list_fmap_compose.
  f_equal. apply list_fmap_ext. intros i t _. simpl. apply lower_idem.
Qed.

Lemma blank_lower_eq (s : string) : blank (lower s) = blank s.
Proof.
  induction s as [|c s IH]; simpl; [done|]. by rewrite isspace_lower_char, IH.
Qed.

Lemma blank_lstrip_eq (s : string) : blank (lstrip s) = blank s.
Proof.
  induction s as [|c s IH]; simpl; [done|].
  destruct (isspace c) eqn:E; simpl; [done|]. by rewrite E.
Qed.

Lemma blank_rstrip_eq (s : string) : blank (rstrip s) = blank s.
Proof.
  induction s as [|c s IH]; simpl; [done|].
  destruct (isspace c) eqn:E; simpl.
  - destruct (is_empty (rstrip s)) eqn:Hr; simpl.
    + rewrite <- IH. by destruct (rstrip s).
    + by rewrite E, IH.
  - by rewrite E.
Qed.

Lemma split_from_nil (cur s : string) :
  split_from cur s = [] <-> cur = EmptyString /\ blank s = true.
Proof.
  revert cur. induction s as [|c s IH]; intros cur; simpl.
  - destruct cur; simpl; intuition congruence.
  - destruct (isspace c); simpl.
    + destruct cur; simpl; [|intuition congruence].
      rewrite (IH EmptyString). intuition congruence.
    + rewrite IH. split; intros [H1 H2];
        [destruct cur; discriminate H1 | discriminate H2].
Qed.

(** A line has no token exactly when it is made of white space only. *)
Lemma tokens_nil_blank (text : string) :
  split (strip (lower text)) = [] <-> blank text = true.
Proof.
  unfold split, strip. rewrite split_from_nil.
  rewrite blank_rstrip_eq, blank_lstrip_eq, blank_lower_eq. intuition congruence.
Qed.

Lemma print_run (s : string) (w : World) : print s w = (Ret tt, printed s w).
Proof. reflexivity. Qed.

Lemma add_item_returns (r : ref) (name : string) (qty : Z) (price : pyfloat)
    (w : World) :
  exists msg, add_item r name qty price w
              = (Ret msg, snd (add_item r name qty price w)).
Proof. rewrite add_item_run. by eexists. Qed.

Lemma remove_item_returns (r : ref) (name : string) (qty : Z) (w : World) :
  exists msg, remove_item r name qty w
              = (Ret msg, snd (remove_item r name qty w)).
Proof.
  destruct (Dict.get (lower name) (deref r w)) as [it|] eqn:E.
  - destruct (Z.le_gt_cases (Item.quantity it) qty) as [Hq|Hq].
    + erewrite remove_item_all by done. by eexists.
    + erewrite remove_item_some by done. by eexists.
  - rewrite remove_item_absent by done. by eexists.
Qed.

(** The guarded branch of an add or remove command: the operation [op] runs
    when the quantity token is an integer, and the usage line is printed
    when it is not. *)
Lemma quantity_command_outcome (op : string -> Z -> M string)
    (usage token : string) (parts : list string) (w : World) :
  parts !! 1%nat = Some token ->
  (forall name qty, exists msg, op name qty w = (Ret msg, snd (op name qty w))) ->
  exists line,
    try_except
      (let* token := index 1 parts in
       let* qty := int token in
       let name := join " " (drop 2 parts) in
       let* msg := op name qty in
       print msg)
      (is_kind ValueError)
      (fun _ => print usage) w
    = (Ret tt,
       printed line
         match parse_int token with
         | Some qty => snd (op (join " " (drop 2 parts)) qty w)
         | None => w
         end).
Proof.
  intros Htoken Hop. unfold try_except, bind, index, int. rewrite Htoken.
  cbv beta iota delta [ret]. destruct (parse_int token) as [qty|].
  - cbv beta iota delta [ret].
    destruct (Hop (join " " (drop 2 parts)) qty) as [msg Hmsg].
    rewrite Hmsg. by exists msg.
  - by exists usage.
Qed.

(** What the interpreter does with a line. On a line without a token it
    raises [IndexError] and changes nothing. On any other line it returns,
    having made at most one call of [add_item] or [remove_item] on the
    inventory and then printed one line. *)
Lemma handle_outcome (r : ref) (text : string) (w : World) :
  (blank text = true
   /\ handle_local_text_command r text w
      = (Raise (Exn IndexError "list index out of range"), w))
  \/ (blank text = false
      /\ exists line w1,
           handle_local_text_command r text w = (Ret tt, printed line w1)
           /\ one_operation r w w1).
Proof.
  destruct (split (strip (lower text))) as [|verb rest] eqn:Hparts.
  { apply tokens_nil_blank in Hparts. left. split; [done|].
    by apply blank_line_no_verb. }
  right. split.
  { destruct (blank text) eqn:Hb; [|done].
    apply tokens_nil_blank in Hb. congruence. }
  rewrite (handle_unfold _ _ _ _ _ Hparts). cbv zeta.
  destruct (is_in verb ["add"; "insert"] && (3 <=? length (verb :: rest))%nat)
    eqn:Cadd.
  { destruct rest as [|token rest];
      [simpl in Cadd; by rewrite andb_false_r in Cadd|].
    destruct (quantity_command_outcome
                (fun name qty => add_item r name qty zero_price)
                msg_usage_add token (verb :: token :: rest) w eq_refl)
      as [line Hline].
    { intros name qty. apply add_item_returns. }
    eexists line, _. split; [exact Hline|].
    destruct (parse_int token); constructor. }
  destruct (is_in verb ["remove"; "delete"] && (3 <=? length (verb :: rest))%nat)
    eqn:Cremove.
  { destruct rest as [|token rest];
      [simpl in Cremove; by rewrite andb_false_r in Cremove|].
    destruct (quantity_command_outcome (remove_item r)
                msg_usage_remove token (verb :: token :: rest) w eq_refl)
      as [line Hline].
    { intros name qty. apply remove_item_returns. }
    eexists line, _. split; [exact Hline|].
    destruct (parse_int token); constructor. }
  destruct (is_in verb ["check"; "stock"] && (2 <=? length (verb :: rest))%nat).
  { unfold bind. rewrite check_stock_run. eexists _, w. split; [done|constructor]. }
  destruct (is_in verb ["list"; "show"]).
  { unfold bind. rewrite list_items_run. eexists _, w. split; [done|constructor]. }
  eexists _, w. split; [done|constructor].
Qed.





(** An add command for an item that is not in the mapping creates an entry
    whose key and display name are both the rest of the line as the
    interpreter sees it, lower-cased and with single spaces, with the
    quantity typed and the price 0.0; the casing typed is not kept. *)
Theorem add_command_stores_lowercase_name (inventory : ref)
    (text verb token : string) (rest : list string) (qty : Z) (w : World) :
  split (strip (lower text)) = verb :: token :: rest ->
  rest <> [] ->
  is_in verb ["add"; "insert"] = true ->
  parse_int token = Some qty ->
  Dict.get (join " " rest) (deref inventory w) = None ->
  exists w',
    handle_local_text_command inventory text w
    = (Ret tt, printed (msg_added (join " " rest) qty qty) w')
    /\ lower (join " " rest) = join " " rest
    /\ Dict.get (join " " rest) (deref inventory w')
       = Some (Item.mk (join " " rest) qty (Some zero_price))
    /\ file w' = Some (deref inventory w').
Proof.
  intros Hparts Hrest Hverb Htoken Habsent.
  assert (Hlow : lower (join " " rest) = join " " rest).
  { pose proof (rest_of_line_lowered text 2) as H. simpl in H.
    by rewrite Hparts in H. }
  rewrite (handle_unfold _ _ _ _ _ Hparts). cbv zeta.
  rewrite Hverb. destruct rest as [|name1 rest]; [done|].
  change (3 <=? length (verb :: token :: name1 :: rest))%nat with true.
  cbv beta iota delta [andb].
  unfold try_except, bind, index, int.
  change ((verb :: token :: name1 :: rest) !! 1%nat) with (Some token).
  cbv beta iota delta [ret]. rewrite Htoken. cbv beta iota delta [ret].
  change (drop 2 (verb :: token :: name1 :: rest)) with (name1 :: rest).
  rewrite add_item_run. unfold added_entry. rewrite Hlow, Habsent.
  eexists. split; [reflexivity|]. rewrite deref_updated.
  split_and!; [done | apply dict_get_set_eq | done].
Qed.

Lemma add_command_stores_lowercase_name_witness :
  exists w',
    handle_local_text_command 0%nat "ADD 5 Green  Apples" initial_world
    = (Ret tt, printed (msg_added "green apples" 5 5) w')
    /\ lower "green apples" = "green apples"
    /\ Dict.get "green apples" (deref 0%nat w')
       = Some (Item.mk "green apples" 5 (Some zero_price))
    /\ file w' = Some (deref 0%nat w').
Proof.
  apply (add_command_stores_lowercase_name 0%nat "ADD 5 Green  Apples"
           "add" "5" ["green"; "apples"] 5 initial_world).
  - reflexivity.
  - discriminate.
  - reflexivity.
  - reflexivity.
  - reflexivity.
Defined.

(** ** Whole sessions *)

Lemma local_loop_end (r : ref) (w : World) :
  local_loop r [] w = (Ret tt, printed (nl +:+ "Exiting.") w).
Proof. reflexivity. Qed.

Lemma local_loop_interrupt (r : ref) (rest : list input_event) (w : World) :
  local_loop r (Interrupt :: rest) w = (Ret tt, printed (nl +:+ "Exiting.") w).
Proof. reflexivity. Qed.

(** A property of the state that printing does not affect and that one
    operation on the inventory keeps, holds at the end of the local command
    loop when it held at its start, however the loop ends. *)
Lemma local_loop_invariant (P : World -> Prop) (r : ref) :
  (forall w line, P w -> P (printed line w)) ->
  (forall w w1, P w -> one_operation r w w1 -> P w1) ->
  forall (stdin : list input_event) (w : World),
    P w -> P (snd (local_loop r stdin w)).
Proof.
  intros Hprint Hop. induction stdin as [|[cmd|] rest IH]; intros w Hw.
  - rewrite local_loop_end. by apply Hprint.
  - rewrite local_loop_line. destruct (is_empty cmd); [by apply IH|].
    destruct (is_exit cmd); [by apply (Hprint w)|].
    unfold bind.
    destruct (handle_outcome r cmd w)
      as [[_ Hrun]|[_ (line & w1 & Hrun & Hone)]]; rewrite Hrun; [done|].
    apply IH, Hprint. by eapply Hop.
  - rewrite local_loop_interrupt. by apply Hprint.
Qed.

Lemma synced_one_operation (r : ref) (w w1 : World) :
  synced r w -> one_operation r w w1 -> synced r w1.
Proof.
  unfold synced. intros Hw [|name qty price|name qty]; [done| |].
  - rewrite add_item_run. simpl. by rewrite deref_updated.
  - destruct (Dict.get (lower name) (deref r w)) as [it|] eqn:E.
    + destruct (Z.le_gt_cases (Item.quantity it) qty) as [Hq|Hq].
      * erewrite remove_item_all by done. simpl. by rewrite deref_updated.
      * erewrite remove_item_some by done. simpl. by rewrite deref_updated.
    + by rewrite remove_item_absent.
Qed.

Lemma keyed_one_operation (r : ref) (w w1 : World) :
  keyed (deref r w) -> one_operation r w w1 -> keyed (deref r w1).
Proof.
  intros Hw [|name qty price|name qty]; [done| |].
  - by apply add_item_keyed.
  - by apply remove_item_keyed.
Qed.

(** What [run_local_cli] starts its loop with: the mapping it loaded, at a
    new reference, and its banner printed. *)
Lemma run_local_cli_start (stdin : list input_event) (w : World) :
  let r := fresh (dom (heap w)) in
  let d := default [] (file w) in
  run_local_cli stdin w
  = local_loop r stdin
      (printed msg_cli_ready
         (mkWorld (<[r := d]> (heap w)) (file w) (saves w) (stdout w))).
Proof.
  unfold run_local_cli, bind, load_inventory, new_dict.
  by destruct (file w).
Qed.

(** At the end of a direct-mode session, however it ends (exit, end of
    input, interrupt, or the exception of a blank line), the persisted file
    holds what the mapping of the session holds: no change made in memory is
    left unsaved. *)
Theorem local_session_file_synced (stdin : list input_event) (w : World) :
  synced (fresh (dom (heap w))) (snd (run_local_cli stdin w)).
Proof.
  rewrite run_local_cli_start. cbv zeta.
  apply (local_loop_invariant (synced (fresh (dom (heap w))))).
  - by intros w0 line H.
  - intros w0 w1. apply synced_one_operation.
  - unfold synced, deref. simpl. by rewrite lookup_insert_eq.
Qed.

(** When every key of the persisted mapping is the lower-cased name of its
    entry, the same holds of the mapping of a direct-mode session at its
    end, whatever was typed. *)
Theorem local_session_keys_lowercased (stdin : list input_event) (w : World) :
  keyed (default [] (file w)) ->
  keyed (deref (fresh (dom (heap w))) (snd (run_local_cli stdin w))).
Proof.
  intros Hfile. rewrite run_local_cli_start. cbv zeta.
  apply (local_loop_invariant (fun w0 => keyed (deref (fresh (dom (heap w))) w0))).
  - by intros w0 line H.
  - intros w0 w1. apply keyed_one_operation.
  - unfold deref. simpl. by rewrite lookup_insert_eq.
Qed.

Lemma local_session_keys_lowercased_witness :
  let w := mkWorld ∅ (Some [("apples", Item.mk "Apples" 8 (Some zero_price))])
             0 [] in
  keyed (deref (fresh (dom (heap w)))
           (snd (run_local_cli [Line "add 2 Green Pears"; Line "remove 1 APPLES"] w))).
Proof.
  apply (local_session_keys_lowercased
           [Line "add 2 Green Pears"; Line "remove 1 APPLES"]).
  repeat constructor.
Defined.




Lemma sdk_loop_end (sdk : Sdk) (tools : tool -> Params -> M string) (n : nat)
    (w : World) :
  sdk_loop sdk tools n [] w = (Raise (Exn EOFError "EOF when reading a line"), w).
Proof. reflexivity. Qed.

Lemma sdk_loop_interrupt (sdk : Sdk) (tools : tool -> Params -> M string)
    (n : nat) (rest : list input_event) (w : World) :
  sdk_loop sdk tools n (Interrupt :: rest) w
  = (Raise (Exn KeyboardInterrupt ""), w).
Proof. reflexivity. Qed.

Lemma sdk_loop_line (sdk : Sdk) (tools : tool -> Params -> M string) (n : nat)
    (user : string) (rest : list input_event) (w : World) :
  sdk_loop sdk tools n (Line user :: rest) w
  = (if is_empty user then sdk_loop sdk tools n rest
     else if is_exit user then print "Goodbye."
     else
       try_except
         (let* response := agent_exec tools (sdk_run sdk n user) in
          print ("Agent: " +:+ response))
         is_Exception
         (fun e =>
            print ("Agent runtime error: " +:+ exn_msg e) ;;
            let* fresh_inventory := load_inventory in
            handle_local_text_command fresh_inventory user) ;;
       sdk_loop sdk tools (S n) rest) w.
Proof. reflexivity. Qed.

Lemma sdk_loop_no_exit (sdk : Sdk) (tools : tool -> Params -> M string)
    (stdin : list input_event) :
  no_exit_line stdin ->
  forall (n : nat) (w : World),
    exists e, fst (sdk_loop sdk tools n stdin w) = Raise e.
Proof.
  induction 1 as [|[user|] rest Hev _ IH]; intros n w.
  - rewrite sdk_loop_end. by eexists.
  - rewrite sdk_loop_line. destruct (is_empty user); [apply IH|].
    rewrite Hev. unfold bind at 1.
    destruct (try_except _ _ _ w) as [[[]|e] w1]; [apply IH|].
    by exists e.
  - rewrite sdk_loop_interrupt. by eexists.
Qed.

Lemma run_with_sdk_available (sdk : Sdk) (stdin : list input_event) (w : World) :
  sdk_available sdk ->
  run_with_sdk sdk stdin w
  = (let* inventory := load_inventory in
     print msg_sdk_ready ;;
     sdk_loop sdk (tool_func inventory) 0 stdin) w.
Proof.
  intros (Himport & Htool & Hagent).
  unfold run_with_sdk, make_tools, all_tools.
  rewrite Himport, !Htool, Hagent.
  unfold try_except, bind, may_raise, ret, load_inventory, new_dict.
  cbv beta iota delta [negb]. by destruct (file w).
Qed.

(** In SDK mode only an exit command ends the session without an exception:
    when the SDK is available and no line of the input is an exit command,
    [run_with_sdk] ends by raising, at the latest with the [EOFError] of
    [input] at the end of the input, which this loop does not handle. *)
Theorem sdk_session_without_exit_raises (sdk : Sdk)
    (stdin : list input_event) (w : World) :
  sdk_available sdk ->
  no_exit_line stdin ->
  exists e, fst (run_with_sdk sdk stdin w) = Raise e.
Proof.
  intros Hsdk Hstdin. rewrite run_with_sdk_available by done.
  unfold bind, load_inventory, new_dict, print.
  destruct (file w); apply sdk_loop_no_exit; done.
Qed.

Lemma sdk_session_without_exit_raises_witness :
  exists e,
    fst (run_with_sdk flaky_sdk [Line "add 5 apples"; Line "how many apples?"]
           initial_world) = Raise e.
Proof.
  apply (sdk_session_without_exit_raises flaky_sdk
           [Line "add 5 apples"; Line "how many apples?"] initial_world).
  - split_and!; [reflexivity | intros t; reflexivity | reflexivity].
  - repeat constructor.
Defined.

Lemma import_failure_falls_back_witness :
  let sdk := mkSdk (Some (Exn ImportError "No module named 'openai.agents'"))
               (fun _ => None) None (fun _ _ => Respond "") in
  run_with_sdk sdk [Line "add 5 apples"; Line "list"] initial_world
  = (print ("OpenAI Agents SDK not available or import failed: "
              +:+ "No module named 'openai.agents'") ;;
     print ("Falling back to local CLI mode." +:+ nl) ;;
     run_local_cli [Line "add 5 apples"; Line "list"]) initial_world.
Proof.
  apply (import_failure_falls_back
           (mkSdk (Some (Exn ImportError "No module named 'openai.agents'"))
              (fun _ => None) None (fun _ _ => Respond ""))
           (Exn ImportError "No module named 'openai.agents'")).
  - reflexivity.
  - reflexivity.
Defined.

Lemma fallback_leaves_shared_mapping_witness :
  let w := loaded_world [("apples", Item.mk "apples" 8 (Some zero_price))] in
  deref 0%nat
    (snd ((let* fresh_inventory := load_inventory in
           handle_local_text_command fresh_inventory "add 5 pears") w))
  = deref 0%nat w.
Proof.
  apply (fallback_leaves_shared_mapping 0%nat "add 5 pears").
  eexists. reflexivity.
Defined.
